(** * tblparse: table block detection (packages/core, [table-block.ts])

    A shallow embedding of the block segmenter, the title / header
    classifier and the block data extractor, together with the properties
    the specification states about them.

    Conventions of the embedding.
    - Row numbers and the bounds decoded from the reference range are
      JavaScript integers and are modelled as [Z]; the sentinel [-1] of
      [blockStartRow] is kept as it is.
    - Column counts are counters that start at zero and are only ever
      incremented; they are modelled as [nat].
    - [undefined] is [None]; an optional field is an [option].
    - A worksheet is its ["!ref"] entry plus the map from address keys
      (["A1"], ["B7"], ...) to cell objects.
    - A thrown exception is the [Err] case of [result].
    - A spread call [f(...values)] passes one argument per element and
      throws a [RangeError] when there are more of them than the engine
      takes; the limit is the field [argumentLimit] of the runtime
      interface.
    - A regular expression is an object with a [lastIndex] that [test]
      reads and writes when the pattern has the [g] or the [y] flag.
    - What the code borrows from the JavaScript runtime and from the xlsx
      package is an interface ([JsRuntime], [XlsxUtils], [XlsxReader]):
      every theorem holds for all implementations of it. *)

From Stdlib Require Import Ascii.
From stdpp Require Import base list gmap strings pretty.

Open Scope Z_scope.

(** ** Exceptions *)

Inductive Error : Type :=
| TypeError                      (* property access on [undefined] *)
| RangeError                     (* a call with more arguments than the engine takes *)
| JsError (message : string).    (* [new Error(message)] *)

Inductive result (A : Type) : Type :=
| Ok (a : A)
| Err (e : Error).
Arguments Ok {A} a.
Arguments Err {A} e.

(** Sequencing: the first exception aborts the rest ([x ← m; k]). *)
Global Instance result_bind : MBind result := λ A B k m,
  match m with
  | Ok a => k a
  | Err e => Err e
  end.

(** The error of [loadSheet]: [throw new Error("Workbook contains no sheets")]. *)
Definition NoSheetsError : Error := JsError "Workbook contains no sheets".

(** ** The JavaScript runtime *)

Class JsRuntime : Type := {
  (** the numbers a cell can hold *)
  number : Type;
  (** [String(n)] for a number [n] *)
  number_to_string : number → string;
  (** [String.prototype.trim] *)
  trim : string → string;
  (** the number of arguments the engine takes in one call: a spread
      [f(...values)] of a longer array throws a [RangeError].  The limit
      differs between engines (a fixed number in some, what the stack
      holds in others); no theorem depends on its value. *)
  argumentLimit : Z;
}.

(** ** The xlsx package: addresses and ranges *)

Module XLSX.
(** [{ r, c }], both 0-based. *)
Record CellAddress : Type := { r : Z; c : Z }.
(** [{ s, e }]: first and last cell of a range. *)
Record Range : Type := { s : CellAddress; e : CellAddress }.
End XLSX.

Class XlsxUtils : Type := {
  (** [XLSX.utils.decode_range] *)
  decode_range : string → XLSX.Range;
  (** [XLSX.utils.encode_cell] *)
  encode_cell : XLSX.CellAddress → string;
}.

(** ** Cells and worksheets *)

Section Grid.
Context `{JsRuntime}.

(** The [v] field of a cell object. *)
Inductive CellValue : Type :=
| VUndefined
| VString (str : string)
| VNumber (n : number)
| VBoolean (b : bool).

Record CellObject : Type := { v : CellValue }.

Record WorkSheet : Type := {
  (** [sheet["!ref"]] *)
  ref : option string;
  (** [sheet[address]] for the address keys *)
  cells : gmap string CellObject;
}.

Record WorkBook : Type := {
  SheetNames : option (list string);
  Sheets : gmap string WorkSheet;
}.

(** [String(x)] *)
Definition js_String (x : CellValue) : string :=
  match x with
  | VUndefined => "undefined"
  | VString str => str
  | VNumber n => number_to_string n
  | VBoolean b => if b then "true" else "false"
  end.

(** [cell && cell.v !== undefined && cell.v !== ""] *)
Definition occupied (cell : option CellObject) : bool :=
  match cell with
  | None => false
  | Some cell =>
      match v cell with
      | VUndefined => false
      | VString str => negb (String.eqb str "")
      | _ => true
      end
  end.
End Grid.

Inductive DataType : Type := array | string_ | buffer.

Class XlsxReader `{JsRuntime} : Type := {
  (** [ArrayBuffer | string | Uint8Array] *)
  Data : Type;
  (** [XLSX.read(data, { type })] *)
  XLSX_read : Data → DataType → result WorkBook;
}.

(** ** Blocks *)

Record BlockRow : Type := {
  row : Z;
  columnCount : nat;
  labelValue : option string;
}.

Record TableBlock : Type := {
  startRow : Z;
  endRow : Z;
  rows : list BlockRow;
  maxColumnCount : nat;
}.

(** A regular expression object, as far as [pattern.test(s)] uses it.
    [matchAt start s] is the matcher: the end index of the match that a
    search of [s] from index [start] finds, if there is one.  A pattern
    with the [g] or the [y] flag starts at its [lastIndex] and stores the
    end of the match there, or 0 after a failure; any other pattern starts
    at 0 and leaves [lastIndex] alone. *)
Record RegExp : Type := {
  usesLastIndex : bool;
  lastIndex : nat;
  matchAt : nat → string → option nat;
}.

(** [pattern.test(s)]: the answer, and the pattern object after the call. *)
Definition RegExp_test (pattern : RegExp) (str : string) : bool * RegExp :=
  if usesLastIndex pattern then
    match matchAt pattern (lastIndex pattern) str with
    | Some stop =>
        (true, {| usesLastIndex := true; lastIndex := stop;
                  matchAt := matchAt pattern |})
    | None =>
        (false, {| usesLastIndex := true; lastIndex := 0;
                   matchAt := matchAt pattern |})
    end
  else
    match matchAt pattern 0 str with
    | Some _ => (true, pattern)
    | None => (false, pattern)
    end.

Record HeaderDetectionOptions : Type := {
  headerPattern : option RegExp;
  noHeader : option bool;
}.

Record BlockStructure : Type := {
  titleRow : option BlockRow;
  headerRow : option BlockRow;
  dataRows : list BlockRow;
}.

(** Truthiness of the two kinds of optional value the code tests. *)
Definition truthy_bool (b : option bool) : bool :=
  match b with Some true => true | _ => false end.

Definition truthy_string (str : option string) : bool :=
  match str with
  | Some str => negb (String.eqb str "")
  | None => false
  end.

(** [rows.find((r) => r.labelValue && pattern.test(r.labelValue))]: [test]
    is only called on a truthy label, and every call may move the
    [lastIndex] the next call starts from. *)
Fixpoint findByPattern (pattern : RegExp) (rows : list BlockRow) : option BlockRow :=
  match rows with
  | [] => None
  | r :: rows =>
      if truthy_string (labelValue r) then
        let '(matched, pattern) := RegExp_test pattern (default "" (labelValue r)) in
        if matched then Some r else findByPattern pattern rows
      else findByPattern pattern rows
  end.

(** ** The functions of [table-block.ts] *)

Section TableBlock.
Context `{JsRuntime} `{XlsxUtils}.

(** [labelColumn + row] *)
Definition labelAddress (labelColumn : string) (row : Z) : string :=
  labelColumn +:+ pretty row.

(** The column loop of [analyzeRow]. *)
Definition countColumns (sheet : WorkSheet) (row maxCol : Z) : nat :=
  foldl (λ columnCount col,
           let cellAddress := encode_cell {| XLSX.r := row - 1; XLSX.c := col |} in
           let cell := cells sheet !! cellAddress in
           if occupied cell then S columnCount else columnCount)
        0%nat (seqZ 0 maxCol).

Definition analyzeRow (sheet : WorkSheet) (row maxCol : Z)
    (labelColumn : string) : BlockRow :=
  let columnCount := countColumns sheet row maxCol in
  let labelCell := cells sheet !! labelAddress labelColumn row in
  let labelValue :=
    match labelCell with
    | Some labelCell =>
        match v labelCell with
        | VString str => Some (trim str)
        | other => Some (js_String other)
        end
    | None => None
    end in
  {| row := row; columnCount := columnCount; labelValue := labelValue |}.

(** [Math.max(...values)]: the spread passes one argument per element.
    (Without arguments the result is [-Infinity]; the one call site reads
    [rows[rows.length - 1].row] next, which throws on an empty array, so
    that value is never returned.) *)
Definition Math_max (values : list nat) : result nat :=
  if decide (argumentLimit < Z.of_nat (length values)) then Err RangeError
  else Ok (max_list values).

Definition createBlock (rows : list BlockRow) (startRow : Z) : result TableBlock :=
  maxColumnCount ← Math_max (columnCount <$> rows);
  match last rows with
  | None => Err TypeError
  | Some lastRow =>
      Ok {| startRow := startRow; endRow := row lastRow;
            rows := rows; maxColumnCount := maxColumnCount |}
  end.

(** The three variables the row loop of [detectTableBlocks] updates. *)
Record Scan : Type := {
  blocks : list TableBlock;
  currentBlock : list BlockRow;
  blockStartRow : Z;
}.

Definition scanRow (sheet : WorkSheet) (maxCol : Z) (labelColumn : string)
    (st : Scan) (row : Z) : result Scan :=
  let rowInfo := analyzeRow sheet row maxCol labelColumn in
  if decide (columnCount rowInfo = 0%nat) then
    if decide (0 < length (currentBlock st))%nat then
      block ← createBlock (currentBlock st) (blockStartRow st);
      Ok {| blocks := blocks st ++ [block]; currentBlock := [];
            blockStartRow := -1 |}
    else Ok st
  else
    let blockStartRow' :=
      if decide (blockStartRow st = -1) then row else blockStartRow st in
    Ok {| blocks := blocks st; currentBlock := currentBlock st ++ [rowInfo];
          blockStartRow := blockStartRow' |}.

Fixpoint scanRows (sheet : WorkSheet) (maxCol : Z) (labelColumn : string)
    (st : Scan) (todo : list Z) : result Scan :=
  match todo with
  | [] => Ok st
  | row :: todo =>
      st' ← scanRow sheet maxCol labelColumn st row;
      scanRows sheet maxCol labelColumn st' todo
  end.

(** [XLSX.utils.decode_range(sheet["!ref"] || "A1")] *)
Definition sheetRange (sheet : WorkSheet) : XLSX.Range :=
  decode_range (if truthy_string (ref sheet) then default "A1" (ref sheet) else "A1").

Definition sheetMaxRow (sheet : WorkSheet) : Z := XLSX.r (XLSX.e (sheetRange sheet)) + 1.
Definition sheetMaxCol (sheet : WorkSheet) : Z := XLSX.c (XLSX.e (sheetRange sheet)) + 1.

Definition detectTableBlocks (sheet : WorkSheet) (labelColumn : string)
    : result (list TableBlock) :=
  let maxRow := sheetMaxRow sheet in
  let maxCol := sheetMaxCol sheet in
  st ← scanRows sheet maxCol labelColumn
       {| blocks := []; currentBlock := []; blockStartRow := -1 |}
       (seqZ 1 maxRow);
  if decide (0 < length (currentBlock st))%nat then
    block ← createBlock (currentBlock st) (blockStartRow st);
    Ok (blocks st ++ [block])
  else Ok (blocks st).

(** [block.rows[0]] is [undefined] for an empty array, and reading its
    [columnCount] throws. *)
Definition detectTitleRow (block : TableBlock) : result (option BlockRow) :=
  match rows block !! 0%nat with
  | None => Err TypeError
  | Some firstRow =>
      if decide (columnCount firstRow < maxColumnCount block)%nat
      then Ok (Some firstRow)
      else Ok None
  end.

Definition detectHeaderRow (block : TableBlock) (options : HeaderDetectionOptions)
    : result (option BlockRow) :=
  if truthy_bool (noHeader options) then Ok None
  else
    titleRow ← detectTitleRow block;
    let dataRows := if titleRow is Some _ then drop 1 (rows block) else rows block in
    if decide (length dataRows = 0%nat) then Ok None
    else
      let byDefault := Ok (dataRows !! 0%nat) in
      match headerPattern options with
      | Some pattern =>
          match findByPattern pattern dataRows with
          | Some found => Ok (Some found)
          | None => byDefault
          end
      | None => byDefault
      end.

Definition analyzeBlockStructure (block : TableBlock)
    (options : HeaderDetectionOptions) : result BlockStructure :=
  titleRow ← detectTitleRow block;
  headerRow ← detectHeaderRow block options;
  let dataRows := rows block in
  let dataRows :=
    match titleRow with
    | Some titleRow => filter (λ r, row r ≠ row titleRow) dataRows
    | None => dataRows
    end in
  let dataRows :=
    match headerRow with
    | Some headerRow => filter (λ r, row r ≠ row headerRow) dataRows
    | None => dataRows
    end in
  Ok {| titleRow := titleRow; headerRow := headerRow; dataRows := dataRows |}.

(** [cell?.v !== undefined ? String(cell.v) : ""] *)
Definition cellText (cell : option CellObject) : string :=
  match cell with
  | Some cell =>
      match v cell with
      | VUndefined => ""
      | defined => js_String defined
      end
  | None => ""
  end.

(** Neither loop of [extractBlockData] contains an operation that can
    throw, so the embedding is a plain function. *)
Definition extractBlockData (sheet : WorkSheet) (block : TableBlock)
    : list (list string) :=
  foldl (λ data row,
           let rowData :=
             foldl (λ rowData col,
                      let cellAddress :=
                        encode_cell {| XLSX.r := row - 1; XLSX.c := col |} in
                      let cell := cells sheet !! cellAddress in
                      rowData ++ [cellText cell])
                   [] (seqZ 0 (Z.of_nat (maxColumnCount block))) in
           data ++ [rowData])
        [] (seqZ (startRow block) (endRow block - startRow block + 1)).

Context `{XlsxReader}.

(** [workbook.Sheets[name]] is [undefined] when the workbook holds no
    sheet under its first name; the result is then [Ok None]. *)
Definition loadSheet (data : Data) (type : DataType) : result (option WorkSheet) :=
  workbook ← XLSX_read data type;
  match SheetNames workbook with
  | None => Err NoSheetsError
  | Some names =>
      match names with
      | [] => Err NoSheetsError
      | first :: _ => Ok (Sheets workbook !! first)
      end
  end.
End TableBlock.

(** ** A reference implementation of the runtime interface

    Used to run the functions above on concrete worksheets.  Numbers are
    the integers, printed in decimal; [sample_trim] strips the ASCII white
    space; [plain] and [usedGlobal] build pattern objects; the two address
    utilities follow the xlsx package
    ([encode_cell] writes the column in bijective base 26 followed by the
    1-based row; [decode_cell] accumulates the digits into the row and the
    capital letters into the column, skipping every other character). *)

Module Sample.
Fixpoint trimStart (str : string) : string :=
  match str with
  | String a rest => if Ascii.is_space a then trimStart rest else str
  | EmptyString => EmptyString
  end.

Definition sample_trim (str : string) : string :=
  String.rev (trimStart (String.rev (trimStart str))).

(** The argument limit is the one of an engine with a fixed limit of
    65536 arguments. *)
Definition runtime : JsRuntime :=
  {| number := Z; number_to_string := pretty; trim := sample_trim;
     argumentLimit := 65536 |}.

(** [for (; col; col = ((col - 1) / 26) | 0) s = fromCharCode((col - 1) % 26 + 65) + s] *)
Fixpoint encode_col_go (fuel : nat) (col : Z) (acc : string) : string :=
  match fuel with
  | O => acc
  | S fuel =>
      if decide (col = 0) then acc
      else encode_col_go fuel ((col - 1) `quot` 26)
             (String (Ascii.ascii_of_N (Z.to_N ((col - 1) `rem` 26 + 65))) acc)
  end.

Definition sample_encode_cell (cell : XLSX.CellAddress) : string :=
  let col := XLSX.c cell + 1 in
  encode_col_go (Z.to_nat (Z.abs col)) col "" +:+ pretty (XLSX.r cell + 1).

Fixpoint decode_cell_go (cstr : string) (R C : Z) : XLSX.CellAddress :=
  match cstr with
  | EmptyString => {| XLSX.r := R - 1; XLSX.c := C - 1 |}
  | String a rest =>
      let cc := Z.of_N (Ascii.N_of_ascii a) in
      if decide (48 ≤ cc ≤ 57) then decode_cell_go rest (10 * R + (cc - 48)) C
      else if decide (65 ≤ cc ≤ 90) then decode_cell_go rest R (26 * C + (cc - 64))
      else decode_cell_go rest R C
  end.

Definition decode_cell (cstr : string) : XLSX.CellAddress :=
  decode_cell_go cstr 0 0.

(** [range.slice(0, idx)] and [range.slice(idx + 1)] around the first
    colon, when there is one. *)
Fixpoint splitColon (range : string) : option (string * string) :=
  match range with
  | EmptyString => None
  | String a rest =>
      if decide (a = ":"%char) then Some (EmptyString, rest)
      else '(before, after) ← splitColon rest; Some (String a before, after)
  end.

Definition sample_decode_range (range : string) : XLSX.Range :=
  match splitColon range with
  | None => {| XLSX.s := decode_cell range; XLSX.e := decode_cell range |}
  | Some (before, after) =>
      {| XLSX.s := decode_cell before; XLSX.e := decode_cell after |}
  end.

Definition utils : XlsxUtils :=
  {| decode_range := sample_decode_range; encode_cell := sample_encode_cell |}.

Definition text (str : string) : @CellObject runtime := {| v := VString str |}.
Definition num (n : Z) : @CellObject runtime := {| v := @VNumber runtime n |}.

Definition sheet (range : string) (content : list (string * @CellObject runtime))
    : @WorkSheet runtime :=
  {| ref := Some range; cells := list_to_map content |}.

(** A sheet with the text ["x"] in rows [1 .. height] of column A. *)
Definition column (height : Z) : @WorkSheet runtime :=
  {| ref := Some ("A1:A" +:+ pretty height);
     cells := list_to_map ((λ n, ("A" +:+ pretty n, text "x")) <$> seqZ 1 height) |}.

(** A pattern without flags that matches the strings [accept] takes. *)
Definition plain (accept : string → bool) : RegExp :=
  {| usesLastIndex := false; lastIndex := 0;
     matchAt := λ _ str, if accept str then Some (String.length str) else None |}.

(** [/^(word)$/g] after a successful [test]: it matches [word] from index
    0 only, and its [lastIndex] is the length of [word]. *)
Definition usedGlobal (word : string) : RegExp :=
  {| usesLastIndex := true; lastIndex := String.length word;
     matchAt := λ start str,
       if decide (start = 0%nat) then
         if String.eqb str word then Some (String.length word) else None
       else None |}.

(** A reader that is handed an already parsed workbook. *)
Definition reader : @XlsxReader runtime :=
  {| Data := @WorkBook runtime; XLSX_read := λ workbook _, Ok workbook |}.
End Sample.

(** ** The demo application ([App.tsx])

    The data the demo computes from a parsed workbook, and the two
    expressions that decide what a block card shows. *)

(** [return value] of a callback that does not throw. *)
Global Instance result_ret : MRet result := λ A a, Ok a.

Module Demo.
Section Demo.
Context `{JsRuntime} `{XlsxUtils}.

Record BlockWithData : Type := {
  block : TableBlock;
  title : option string;
  data : list (list string);
}.

Record SheetData : Type := {
  name : string;
  blocks : list BlockWithData;
}.

(** The demo's own copy of the extractor; [XLSX.utils.encode_cell] is
    reached through the module it is handed. *)
Definition extractBlockData (sheet : WorkSheet) (block : TableBlock)
    : list (list string) :=
  foldl (λ data row,
           let rowData :=
             foldl (λ rowData col,
                      let cellAddress :=
                        encode_cell {| XLSX.r := row - 1; XLSX.c := col |} in
                      let cell := cells sheet !! cellAddress in
                      rowData ++ [cellText cell])
                   [] (seqZ 0 (Z.of_nat (maxColumnCount block))) in
           data ++ [rowData])
        [] (seqZ (startRow block) (endRow block - startRow block + 1)).

(** The callback of [detectedBlocks.map]:
    [structure.titleRow?.labelValue] is [undefined] without a title row. *)
Definition blockWithData (sheet : WorkSheet) (block : TableBlock)
    : result BlockWithData :=
  structure ← analyzeBlockStructure block {| headerPattern := None; noHeader := None |};
  let data := extractBlockData sheet block in
  Ok {| block := block;
        title := titleRow structure ≫= labelValue;
        data := data |}.

(** The callback of [workbook.SheetNames.map], from the point where
    [sheet] is the worksheet that [workbook.Sheets[sheetName]] holds. *)
Definition sheetData (sheetName : string) (sheet : WorkSheet) : result SheetData :=
  detectedBlocks ← detectTableBlocks sheet "A";
  blocks ← mapM (blockWithData sheet) detectedBlocks;
  Ok {| name := sheetName; blocks := blocks |}.

(** [title || `Block ${index + 1}`] *)
Definition caption (shown : BlockWithData) (index : nat) : string :=
  if truthy_string (title shown) then default "" (title shown)
  else "Block " +:+ pretty (Z.of_nat index + 1).

(** [title ? data.slice(1) : data] *)
Definition tableRows (shown : BlockWithData) : list (list string) :=
  if truthy_string (title shown) then drop 1 (data shown) else data shown.
End Demo.
End Demo.

Section DemoVocabulary.
Context `{JsRuntime} `{XlsxUtils}.

(** What the demo shows for one detected block. *)
Definition shownFor (sheet : WorkSheet) (b : TableBlock)
    (shown : Demo.BlockWithData) : Prop :=
  Demo.block shown = b ∧
  Demo.data shown = extractBlockData sheet b ∧
  length (Demo.data shown) = length (rows b) ∧
  (∃ t, detectTitleRow b = Ok t ∧ Demo.title shown = t ≫= labelValue) ∧
  (length (Demo.tableRows shown)
   = length (rows b) - (if truthy_string (Demo.title shown) then 1 else 0))%nat ∧
  ∀ index, Demo.caption shown index ≠ "".
End DemoVocabulary.

(** ** Vocabulary of the specification *)

Section Vocabulary.
Context `{JsRuntime} `{XlsxUtils}.

(** The cell of 1-based row [row] and 0-based column [col]. *)
Definition cellAt (sheet : WorkSheet) (row col : Z) : option CellObject :=
  cells sheet !! encode_cell {| XLSX.r := row - 1; XLSX.c := col |}.

(** A row is occupied when one of the columns [0 .. maxCol - 1] of the
    column extent holds an occupied cell; it is fully empty otherwise. *)
Definition rowOccupied (sheet : WorkSheet) (row : Z) : Prop :=
  ∃ col, 0 ≤ col < sheetMaxCol sheet ∧ occupied (cellAt sheet row col) = true.

(** The label cell of a row is unoccupied: there is no cell, or its value
    is undefined or the empty string. *)
Definition labelCellUnoccupied (sheet : WorkSheet) (labelColumn : string)
    (row : Z) : Prop :=
  occupied (cells sheet !! labelAddress labelColumn row) = false.

(** Two sheets hold the same cell at every address of the rectangle that
    the scan walks: rows [1 .. maxRow], columns [0 .. maxCol - 1]. *)
Definition agreeOnExtent (sheet1 sheet2 : WorkSheet) : Prop :=
  ∀ row col, 1 ≤ row ≤ sheetMaxRow sheet1 → 0 ≤ col < sheetMaxCol sheet1 →
    cellAt sheet1 row col = cellAt sheet2 row col.

(** Two sheets hold the same cell at every address of the declared
    range, from its first cell [s] to its last cell [e]. *)
Definition agreeOnRange (sheet1 sheet2 : WorkSheet) : Prop :=
  let range := sheetRange sheet1 in
  ∀ r c, XLSX.r (XLSX.s range) ≤ r ≤ XLSX.r (XLSX.e range) →
         XLSX.c (XLSX.s range) ≤ c ≤ XLSX.c (XLSX.e range) →
    cells sheet1 !! encode_cell {| XLSX.r := r; XLSX.c := c |}
    = cells sheet2 !! encode_cell {| XLSX.r := r; XLSX.c := c |}.

(** Two sheets hold the same label cell in every scanned row. *)
Definition agreeOnLabels (sheet1 sheet2 : WorkSheet) (labelColumn : string) : Prop :=
  ∀ row, 1 ≤ row ≤ sheetMaxRow sheet1 →
    cells sheet1 !! labelAddress labelColumn row
    = cells sheet2 !! labelAddress labelColumn row.

(** The label column is one of the columns of the extent. *)
Definition labelInExtent (sheet : WorkSheet) (labelColumn : string) : Prop :=
  ∀ row, 1 ≤ row ≤ sheetMaxRow sheet →
    ∃ col, 0 ≤ col < sheetMaxCol sheet ∧
      labelAddress labelColumn row
      = encode_cell {| XLSX.r := row - 1; XLSX.c := col |}.

(** The number of sheets a workbook declares. *)
Definition sheetCount (workbook : WorkBook) : nat :=
  length (default [] (SheetNames workbook)).
End Vocabulary.

(** The row number [n] is the number of one of the rows of [block]. *)
Definition rowInBlock (n : Z) (block : TableBlock) : Prop :=
  n ∈ (row <$> rows block).

(** A block without its label values. *)
Definition shapeOfRow (r : BlockRow) : Z * nat := (row r, columnCount r).

Definition shapeOfBlock (block : TableBlock) : Z * Z * nat * list (Z * nat) :=
  (startRow block, endRow block, maxColumnCount block, shapeOfRow <$> rows block).

(** The rows among which the header is looked for: the rows of the block
    minus the detected title row, all of them when there is no title. *)
Definition candidateRows (block : TableBlock) : list BlockRow :=
  match detectTitleRow block with
  | Ok (Some _) => drop 1 (rows block)
  | _ => rows block
  end.

(** The pattern matches [label]: a search from the start of the string
    finds a match. *)
Definition matches (pattern : RegExp) (label : string) : bool :=
  match matchAt pattern 0 label with
  | Some _ => true
  | None => false
  end.

(** [pattern.test] starts at index 0: the pattern has neither the [g] nor
    the [y] flag, or its [lastIndex] is 0. *)
Definition startsAtZero (pattern : RegExp) : Prop :=
  usesLastIndex pattern = false ∨ lastIndex pattern = 0%nat.

(** The label of [r] is defined and the pattern matches it. *)
Definition labelMatches (pattern : RegExp) (r : BlockRow) : Prop :=
  ∃ label, labelValue r = Some label ∧ matches pattern label = true.

(** The label of [r] is a non-empty string and the pattern matches it. *)
Definition nonEmptyLabelMatches (pattern : RegExp) (r : BlockRow) : Prop :=
  ∃ label, labelValue r = Some label ∧ label ≠ "" ∧ matches pattern label = true.

(** [r] is the first element of [l] that satisfies [P]. *)
Definition firstSuch {A : Type} (P : A → Prop) (l : list A) (r : A) : Prop :=
  ∃ before after, l = before ++ r :: after ∧ P r ∧ Forall (λ r', ¬ P r') before.

(** The title row, the header row and the data rows of a structure, in
    one list. *)
Definition structureRows (structure : BlockStructure) : list BlockRow :=
  option_list (titleRow structure) ++ option_list (headerRow structure)
  ++ dataRows structure.

(** ** Runs of occupied rows

    The vocabulary of the scan invariant: what the row loop of
    [detectTableBlocks] has established once rows [1 .. k] are behind it. *)

Section Runs.
Context `{JsRuntime} `{XlsxUtils}.
Variables (sheet : WorkSheet) (labelColumn : string).

(** The descriptor the scan computes for a row. *)
Definition rowInfo (row : Z) : BlockRow :=
  analyzeRow sheet row (sheetMaxCol sheet) labelColumn.

(** The descriptors of rows [first .. last]. *)
Definition runOf (first last : Z) : list BlockRow :=
  rowInfo <$> seqZ first (last - first + 1).

(** The block made of rows [first .. last]. *)
Definition runBlock (first last : Z) : TableBlock :=
  {| startRow := first; endRow := last; rows := runOf first last;
     maxColumnCount := max_list_with columnCount (runOf first last) |}.

Definition occupiedRun (first last : Z) : Prop :=
  ∀ row, first ≤ row ≤ last → rowOccupied sheet row.

(** Among the rows [1 .. k] there is a run of occupied rows with more
    rows than the engine takes arguments in one call. *)
Definition tallRunWithin (k : Z) : Prop :=
  ∃ first final,
    1 ≤ first ≤ final ∧ final ≤ k ∧ occupiedRun first final ∧
    argumentLimit < final - first + 1.

(** The same, among the rows of the row extent. *)
Definition tallRun : Prop := tallRunWithin (sheetMaxRow sheet).

(** A block that the scan has closed before reaching row [k + 1]: a run
    of occupied rows, short enough to be spread into one call, followed by
    an empty row. *)
Definition closedBlock (k : Z) (block : TableBlock) : Prop :=
  ∃ first last,
    block = runBlock first last ∧ 1 ≤ first ≤ last ∧ last < k ∧
    last - first + 1 ≤ argumentLimit ∧
    occupiedRun first last ∧ ¬ rowOccupied sheet (last + 1).

(** A block of the final result: a run of occupied rows of the sheet,
    short enough to be spread into one call. *)
Definition finalBlock (block : TableBlock) : Prop :=
  ∃ first last,
    block = runBlock first last ∧ 1 ≤ first ≤ last ∧
    last ≤ sheetMaxRow sheet ∧ last - first + 1 ≤ argumentLimit ∧
    occupiedRun first last.

(** Later blocks start at least two rows after earlier ones end. *)
Definition ordered (bs : list TableBlock) : Prop :=
  ∀ (i j : nat) b1 b2, (i < j)%nat → bs !! i = Some b1 → bs !! j = Some b2 →
    endRow b1 + 1 < startRow b2.

Record ScanInv (k : Z) (st : Scan) : Prop := {
  inv_k : 0 ≤ k;
  inv_closed : Forall (closedBlock k) (blocks st);
  inv_ordered : ordered (blocks st);
  inv_current :
    match currentBlock st with
    | [] => blockStartRow st = -1
    | _ :: _ =>
        1 ≤ blockStartRow st ≤ k ∧
        currentBlock st = runOf (blockStartRow st) k ∧
        occupiedRun (blockStartRow st) k ∧
        Forall (λ b, endRow b + 1 < blockStartRow st) (blocks st)
    end;
  inv_covered :
    ∀ row, 1 ≤ row ≤ k → rowOccupied sheet row →
      (∃ b, b ∈ blocks st ∧ startRow b ≤ row ≤ endRow b) ∨
      (currentBlock st ≠ [] ∧ blockStartRow st ≤ row);
}.

Record Segmented (bs : list TableBlock) : Prop := {
  seg_blocks : Forall finalBlock bs;
  seg_ordered : ordered bs;
  seg_gap :
    ∀ (i : nat) b1 b2, bs !! i = Some b1 → bs !! S i = Some b2 →
      ¬ rowOccupied sheet (endRow b1 + 1);
  seg_covered :
    ∀ row, 1 ≤ row ≤ sheetMaxRow sheet → rowOccupied sheet row →
      ∃ b, b ∈ bs ∧ startRow b ≤ row ≤ endRow b;
}.
End Runs.

(** ** Comparing two scans up to label values *)

Definition sameScan (st1 st2 : Scan) : Prop :=
  shapeOfBlock <$> blocks st1 = shapeOfBlock <$> blocks st2 ∧
  shapeOfRow <$> currentBlock st1 = shapeOfRow <$> currentBlock st2 ∧
  blockStartRow st1 = blockStartRow st2.

(** Both computations throw the same exception, or both return and the
    values are related. *)
Definition sameOutcome {A : Type} (R : A → A → Prop) (r1 r2 : result A) : Prop :=
  match r1, r2 with
  | Ok a1, Ok a2 => R a1 a2
  | Err e1, Err e2 => e1 = e2
  | _, _ => False
  end.

(** * Properties *)

(** ** Sequencing *)

Lemma bind_Ok {A B : Type} (a : A) (k : A → result B) : (Ok a ≫= k) = k a.
Proof. reflexivity. Qed.

Lemma bind_Err {A B : Type} (e : Error) (k : A → result B) : (Err e ≫= k) = Err e.
Proof. reflexivity. Qed.

Lemma bind_Ok_inv {A B : Type} (m : result A) (k : A → result B) (b : B) :
  (m ≫= k) = Ok b → ∃ a, m = Ok a ∧ k a = Ok b.
Proof. destruct m as [a|e]; [eauto | discriminate]. Qed.

(** ** Title row *)

Lemma detectTitleRow_cons (block : TableBlock) (firstRow : BlockRow) (rest : list BlockRow) :
  rows block = firstRow :: rest →
  detectTitleRow block
  = Ok (if decide (columnCount firstRow < maxColumnCount block)%nat
        then Some firstRow else None).
Proof.
  intros Hrows. unfold detectTitleRow. rewrite Hrows. simpl.
  by destruct (decide _).
Qed.

Lemma detectTitleRow_nil (block : TableBlock) :
  rows block = [] → detectTitleRow block = Err TypeError.
Proof. intros Hrows. unfold detectTitleRow. by rewrite Hrows. Qed.

(** C2, as amended.  For a block whose rows are [firstRow :: rest], the
    title detector returns [firstRow] exactly when its column count is
    strictly below [maxColumnCount], and returns absent otherwise.  For a
    single-row block whose [maxColumnCount] is the maximum column count of
    its rows, the result is absent. *)
Theorem detectTitleRow_rule (block : TableBlock) (firstRow : BlockRow)
    (rest : list BlockRow) :
  rows block = firstRow :: rest →
  (detectTitleRow block = Ok (Some firstRow)
   ↔ (columnCount firstRow < maxColumnCount block)%nat) ∧
  (¬ (columnCount firstRow < maxColumnCount block)%nat →
   detectTitleRow block = Ok None) ∧
  (rest = [] → maxColumnCount block = max_list_with columnCount (rows block) →
   detectTitleRow block = Ok None).
Proof.
  intros Hrows. rewrite (detectTitleRow_cons _ _ _ Hrows).
  split; [|split].
  - destruct (decide _); naive_solver.
  - intros Hge. by destruct (decide _).
  - intros -> Hmax. rewrite Hmax, Hrows. simpl.
    destruct (decide _); [lia | done].
Qed.

(** C2, as stated, fails: a single-row block that records a larger
    [maxColumnCount] than its row has gets that row as its title. *)
Lemma detectTitleRow_single_row_counterexample :
  let firstRow := {| row := 1; columnCount := 1; labelValue := Some "Report" |} in
  let block := {| startRow := 1; endRow := 1; rows := [firstRow];
                  maxColumnCount := 2 |} in
  length (rows block) = 1%nat ∧ detectTitleRow block = Ok (Some firstRow).
Proof. split; reflexivity. Qed.

(** The title detector at a titled two-row block and at a single-row
    block. *)
Lemma detectTitleRow_rule_witness :
  let title := {| row := 1; columnCount := 1; labelValue := Some "Sales" |} in
  let month := {| row := 2; columnCount := 4; labelValue := Some "Month" |} in
  let titled := {| startRow := 1; endRow := 2; rows := [title; month];
                   maxColumnCount := 4 |} in
  let single := {| startRow := 1; endRow := 1; rows := [month];
                   maxColumnCount := 4 |} in
  detectTitleRow titled = Ok (Some title) ∧ detectTitleRow single = Ok None.
Proof.
  intros title month titled single. split.
  - apply (detectTitleRow_rule titled title [month] eq_refl). simpl. lia.
  - exact (proj2 (proj2 (detectTitleRow_rule single month [] eq_refl))
                 eq_refl eq_refl).
Defined.

(** ** Header row *)

Lemma candidateRows_cons (block : TableBlock) (firstRow : BlockRow) (rest : list BlockRow) :
  rows block = firstRow :: rest →
  candidateRows block
  = if decide (columnCount firstRow < maxColumnCount block)%nat
    then rest else firstRow :: rest.
Proof.
  intros Hrows. unfold candidateRows.
  rewrite (detectTitleRow_cons _ _ _ Hrows), Hrows.
  by destruct (decide _).
Qed.

(** The test of the [find] callback, read as a proposition. *)
Lemma header_test_spec (pattern : RegExp) (r : BlockRow) :
  truthy_string (labelValue r) && matches pattern (default "" (labelValue r)) = true
  ↔ nonEmptyLabelMatches pattern r.
Proof.
  unfold nonEmptyLabelMatches, truthy_string.
  destruct (labelValue r) as [label|]; simpl.
  - rewrite andb_true_iff, negb_true_iff, String.eqb_neq. split.
    + intros [Hne Htest]. by exists label.
    + intros (label' & [= <-] & Hne & Htest). done.
  - split; [done | by intros (label & ? & _)].
Qed.

Lemma find_firstSuch {A : Type} (f : A → bool) (l : list A) (r : A) :
  firstSuch (λ x, f x = true) l r → find f l = Some r.
Proof.
  intros (before & after & -> & Hr & Hbefore).
  induction Hbefore as [|x before Hx _ IH]; simpl.
  - by rewrite Hr.
  - destruct (f x); [done | exact IH].
Qed.

Lemma find_Forall_not {A : Type} (f : A → bool) (l : list A) :
  Forall (λ x, f x ≠ true) l → find f l = None.
Proof.
  induction 1 as [|x l Hx _ IH]; simpl; [done|].
  destruct (f x); [done | exact IH].
Qed.

(** A pattern whose [test] starts at index 0 keeps doing so while [find]
    runs: every failed call leaves [lastIndex] at 0.  So [find] returns the
    first row with a truthy label that the pattern matches. *)
Lemma findByPattern_startsAtZero (pattern : RegExp) (rows : list BlockRow) :
  startsAtZero pattern →
  findByPattern pattern rows
  = find (λ r, truthy_string (labelValue r)
               && matches pattern (default "" (labelValue r))) rows.
Proof.
  revert pattern. induction rows as [|r rows IH]; intros pattern Hzero; [done|].
  cbn [findByPattern find].
  destruct (truthy_string (labelValue r)); cbn [andb]; [|by apply IH].
  unfold RegExp_test, matches at 1.
  destruct (usesLastIndex pattern) eqn:Eflag.
  - destruct Hzero as [Hflag|Hindex]; [congruence|]. rewrite Hindex.
    destruct (matchAt pattern 0 _); [done|].
    rewrite IH by (by right). reflexivity.
  - destruct (matchAt pattern 0 _); [done|]. by apply IH.
Qed.

(** Whatever the pattern, the row that [find] returns is one of the rows. *)
Lemma findByPattern_elem (pattern : RegExp) (rows : list BlockRow) (r : BlockRow) :
  findByPattern pattern rows = Some r → r ∈ rows.
Proof.
  revert pattern. induction rows as [|x rows IH]; intros pattern; [done|].
  cbn [findByPattern].
  destruct (truthy_string (labelValue x)).
  - destruct (RegExp_test pattern _) as [[] pattern'].
    + intros [= ->]. apply list_elem_of_here.
    + intros Hfind. apply list_elem_of_further. by eapply IH.
  - intros Hfind. apply list_elem_of_further. by eapply IH.
Qed.

(** The header detector once the title has been found, for a non-empty
    list of candidates. *)
Lemma detectHeaderRow_candidates (block : TableBlock) (options : HeaderDetectionOptions) :
  noHeader options ≠ Some true → rows block ≠ [] →
  detectHeaderRow block options
  = match candidateRows block with
    | [] => Ok None
    | first :: _ =>
        match headerPattern options with
        | Some pattern =>
            match findByPattern pattern (candidateRows block) with
            | Some found => Ok (Some found)
            | None => Ok (Some first)
            end
        | None => Ok (Some first)
        end
    end.
Proof.
  intros HnoHeader Hrows.
  destruct (rows block) as [|firstRow rest] eqn:Erows; [done|].
  unfold detectHeaderRow.
  replace (truthy_bool (noHeader options)) with false
    by (destruct (noHeader options) as [[]|]; done).
  rewrite (candidateRows_cons _ _ _ Erows), (detectTitleRow_cons _ _ _ Erows), Erows.
  rewrite bind_Ok.
  destruct (decide (columnCount firstRow < maxColumnCount block)%nat) as [Hlt|Hge].
  - destruct rest as [|second rest]; [done|]. cbn [drop].
    destruct (headerPattern options); [|done]. by destruct (findByPattern _ _).
  - cbn [drop]. destruct (headerPattern options); [|done].
    by destruct (findByPattern _ _).
Qed.

(** C3, as amended.  [noHeader: true] always yields absent.  Otherwise, for
    a block with at least one row: absent when there is no candidate row;
    for a pattern whose [test] starts at index 0 (no [g] or [y] flag, or
    [lastIndex] 0), the first candidate row whose label is a non-empty
    string that the pattern matches, when such a row exists; the first
    candidate row when no pattern is supplied or no candidate has such a
    label. *)
Theorem detectHeaderRow_rule (block : TableBlock) (options : HeaderDetectionOptions) :
  (noHeader options = Some true → detectHeaderRow block options = Ok None) ∧
  (noHeader options ≠ Some true → rows block ≠ [] →
   (candidateRows block = [] → detectHeaderRow block options = Ok None) ∧
   (∀ pattern r,
      headerPattern options = Some pattern → startsAtZero pattern →
      firstSuch (nonEmptyLabelMatches pattern) (candidateRows block) r →
      detectHeaderRow block options = Ok (Some r)) ∧
   (∀ first rest,
      candidateRows block = first :: rest →
      headerPattern options = None ∨
      (∃ pattern, headerPattern options = Some pattern ∧ startsAtZero pattern ∧
         Forall (λ r, ¬ nonEmptyLabelMatches pattern r) (candidateRows block)) →
      detectHeaderRow block options = Ok (Some first))).
Proof.
  split.
  - intros HnoHeader. unfold detectHeaderRow. by rewrite HnoHeader.
  - intros HnoHeader Hrows.
    rewrite (detectHeaderRow_candidates _ _ HnoHeader Hrows).
    split; [|split].
    + by intros ->.
    + intros pattern r Hpattern Hzero Hfirst. rewrite Hpattern.
      rewrite (findByPattern_startsAtZero _ _ Hzero).
      assert (find (λ r, truthy_string (labelValue r)
                         && matches pattern (default "" (labelValue r)))
                   (candidateRows block) = Some r) as Hfind.
      { apply find_firstSuch.
        destruct Hfirst as (before & after & Hsplit & Hr & Hbefore).
        exists before, after. split; [done|]. split.
        - by apply header_test_spec.
        - eapply Forall_impl; [exact Hbefore|].
          intros r' Hr' Htest. by apply Hr', header_test_spec. }
      rewrite Hfind.
      destruct Hfirst as (before & after & Hsplit & _).
      by destruct (candidateRows block); [destruct before|].
    + intros first rest Hcandidates Hdefault. rewrite Hcandidates.
      destruct Hdefault as [->|(pattern & -> & Hzero & Hnone)]; [done|].
      rewrite (findByPattern_startsAtZero _ _ Hzero).
      rewrite Hcandidates in Hnone. rewrite find_Forall_not; [done|].
      eapply Forall_impl; [exact Hnone|].
      intros r' Hr' Htest. by apply Hr', header_test_spec.
Qed.

(** C3, as stated, fails three times.  A candidate row whose label is the
    empty string is skipped although the pattern (here [/^(Item)?$/])
    matches its label, so the header is the second row and not the first
    one.  A block without rows makes the call throw instead of returning
    absent.  And a pattern with the [g] flag that an earlier [test] left
    with [lastIndex] 4 (here [/^(Item)$/g]) is tried on the label ["Item"]
    from index 4 and fails, so the header is the first candidate row and
    not the row labelled ["Item"]. *)
Lemma detectHeaderRow_counterexample :
  let pattern := Sample.plain (λ label, String.eqb label "" || String.eqb label "Item") in
  let first := {| row := 1; columnCount := 2; labelValue := Some "" |} in
  let second := {| row := 2; columnCount := 2; labelValue := Some "Item" |} in
  let block := {| startRow := 1; endRow := 2; rows := [first; second];
                  maxColumnCount := 2 |} in
  let noRows := {| startRow := 1; endRow := 0; rows := []; maxColumnCount := 0 |} in
  let options := {| headerPattern := Some pattern; noHeader := None |} in
  let used := Sample.usedGlobal "Item" in
  let unlabelled := {| row := 1; columnCount := 2; labelValue := None |} in
  let labelled := {| startRow := 1; endRow := 2; rows := [unlabelled; second];
                     maxColumnCount := 2 |} in
  let usedOptions := {| headerPattern := Some used; noHeader := None |} in
  (firstSuch (labelMatches pattern) (candidateRows block) first ∧
   detectHeaderRow block options = Ok (Some second) ∧ second ≠ first) ∧
  (candidateRows noRows = [] ∧ detectHeaderRow noRows options = Err TypeError) ∧
  (lastIndex used = 4%nat ∧
   firstSuch (labelMatches used) (candidateRows labelled) second ∧
   detectHeaderRow labelled usedOptions = Ok (Some unlabelled) ∧
   unlabelled ≠ second).
Proof.
  repeat split; try done.
  - exists [], [{| row := 2; columnCount := 2; labelValue := Some "Item" |}].
    repeat split; [|constructor]. by exists "".
  - exists [{| row := 1; columnCount := 2; labelValue := None |}], [].
    repeat split.
    + by exists "Item".
    + constructor; [|constructor]. intros (label & Hlabel & _). discriminate Hlabel.
Qed.

(** The header detector at a concrete titled block with three candidates. *)
Lemma detectHeaderRow_rule_witness :
  let pattern := Sample.plain (String.eqb "Item") in
  let title := {| row := 1; columnCount := 1; labelValue := Some "Stock" |} in
  let note := {| row := 2; columnCount := 2; labelValue := None |} in
  let item := {| row := 3; columnCount := 2; labelValue := Some "Item" |} in
  let block := {| startRow := 1; endRow := 3; rows := [title; note; item];
                  maxColumnCount := 2 |} in
  detectHeaderRow block {| headerPattern := Some pattern; noHeader := Some true |}
  = Ok None ∧
  detectHeaderRow block {| headerPattern := Some pattern; noHeader := None |}
  = Ok (Some item) ∧
  detectHeaderRow block {| headerPattern := None; noHeader := Some false |}
  = Ok (Some note).
Proof.
  pose (pattern := Sample.plain (String.eqb "Item")).
  pose (title := {| row := 1; columnCount := 1; labelValue := Some "Stock" |}).
  pose (note := {| row := 2; columnCount := 2; labelValue := None |}).
  pose (item := {| row := 3; columnCount := 2; labelValue := Some "Item" |}).
  pose (block := {| startRow := 1; endRow := 3; rows := [title; note; item];
                    maxColumnCount := 2 |}).
  split; [|split].
  - exact (proj1 (detectHeaderRow_rule block
                    {| headerPattern := Some pattern; noHeader := Some true |})
                 eq_refl).
  - destruct (detectHeaderRow_rule block
                {| headerPattern := Some pattern; noHeader := None |})
      as [_ Hrule].
    destruct (Hrule ltac:(discriminate) ltac:(discriminate))
      as (_ & Hpattern & _).
    apply (Hpattern pattern item eq_refl); [by left|].
    exists [note], []. split; [reflexivity|]. split.
    + exists "Item". repeat split. discriminate.
    + constructor; [|constructor]. intros (label & Hlabel & _). discriminate Hlabel.
  - destruct (detectHeaderRow_rule block
                {| headerPattern := None; noHeader := Some false |})
      as [_ Hrule].
    destruct (Hrule ltac:(discriminate) ltac:(discriminate))
      as (_ & _ & Hdefault).
    apply (Hdefault note [item] eq_refl). left. reflexivity.
Defined.

(** ** Block structure *)

Lemma filter_row_fresh (l : list BlockRow) (n : Z) :
  n ∉ (row <$> l) → filter (λ r, row r ≠ n) l = l.
Proof.
  induction l as [|x l IH]; [done|].
  rewrite fmap_cons, not_elem_of_cons. intros [Hx Hl].
  rewrite filter_cons_True by done. by rewrite IH.
Qed.

Lemma filter_row_Permutation (l : list BlockRow) (h : BlockRow) :
  NoDup (row <$> l) → h ∈ l → l ≡ₚ h :: filter (λ r, row r ≠ row h) l.
Proof.
  induction l as [|x l IH]; [by intros _ ?%elem_of_nil|].
  rewrite fmap_cons, NoDup_cons. intros [Hx Hdup] [->|Hh]%elem_of_cons.
  - rewrite filter_cons_False by (intros Hne; by apply Hne).
    by rewrite filter_row_fresh.
  - assert (row x ≠ row h) as Hne.
    { intros Heq. apply Hx. rewrite Heq. by apply list_elem_of_fmap_2. }
    rewrite filter_cons_True by done.
    rewrite (IH Hdup Hh) at 1. apply Permutation_swap.
Qed.

(** A detected header is one of the candidate rows. *)
Lemma detectHeaderRow_elem (block : TableBlock) (options : HeaderDetectionOptions)
    (h : BlockRow) :
  detectHeaderRow block options = Ok (Some h) → h ∈ candidateRows block.
Proof.
  destruct (decide (noHeader options = Some true)) as [HnoHeader|HnoHeader].
  { unfold detectHeaderRow. by rewrite HnoHeader. }
  destruct (decide (rows block = [])) as [Hrows|Hrows].
  { unfold detectHeaderRow. rewrite (detectTitleRow_nil _ Hrows).
    by destruct (truthy_bool _). }
  rewrite (detectHeaderRow_candidates _ _ HnoHeader Hrows).
  destruct (candidateRows block) as [|first rest]; [done|].
  destruct (headerPattern options) as [pattern|].
  - destruct (findByPattern _ _) as [found|] eqn:Hfind.
    + intros [= <-]. by eapply findByPattern_elem.
    + intros [= <-]. apply list_elem_of_here.
  - intros [= <-]. apply list_elem_of_here.
Qed.

(** The header detector never fails on a block that has a row. *)
Lemma detectHeaderRow_Ok (block : TableBlock) (options : HeaderDetectionOptions) :
  rows block ≠ [] → ∃ header, detectHeaderRow block options = Ok header.
Proof.
  intros Hrows.
  destruct (decide (noHeader options = Some true)) as [HnoHeader|HnoHeader].
  { exists None. unfold detectHeaderRow. by rewrite HnoHeader. }
  rewrite (detectHeaderRow_candidates _ _ HnoHeader Hrows).
  destruct (candidateRows block); [by eexists|].
  destruct (headerPattern options); [|by eexists].
  destruct (findByPattern _ _); by eexists.
Qed.

(** C4, as amended.  For a block with at least one row, whose rows have
    pairwise distinct row numbers, the classifier returns a structure whose
    title and header are those of the two detectors and whose parts
    partition the rows: the counts add up, no row number occurs twice among
    title, header and data rows, together they are the rows of the block,
    and the data rows keep the order of the block. *)
Theorem analyzeBlockStructure_partition (block : TableBlock)
    (options : HeaderDetectionOptions) :
  rows block ≠ [] → NoDup (row <$> rows block) →
  ∃ structure,
    analyzeBlockStructure block options = Ok structure ∧
    detectTitleRow block = Ok (titleRow structure) ∧
    detectHeaderRow block options = Ok (headerRow structure) ∧
    (length (dataRows structure)
     + (if titleRow structure is Some _ then 1 else 0)
     + (if headerRow structure is Some _ then 1 else 0)
     = length (rows block))%nat ∧
    NoDup (row <$> structureRows structure) ∧
    structureRows structure ≡ₚ rows block ∧
    dataRows structure `sublist_of` rows block.
Proof.
  intros Hrows Hdup.
  destruct (detectHeaderRow_Ok block options Hrows) as [header Hheader].
  destruct (rows block) as [|firstRow rest] eqn:Erows; [done|].
  pose proof (detectTitleRow_cons _ _ _ Erows) as Htitle.
  pose proof (candidateRows_cons _ _ _ Erows) as Hcandidates.
  assert (∀ h, header = Some h → h ∈ candidateRows block) as Helem.
  { intros h ->. by eapply detectHeaderRow_elem. }
  unfold analyzeBlockStructure. rewrite Htitle, Hheader, !bind_Ok, Erows.
  assert ((row firstRow ∉ (row <$> rest)) ∧ NoDup (row <$> rest)) as [Hfresh Hdup']
    by (by apply NoDup_cons).
  assert (filter (λ r, row r ≠ row firstRow) (firstRow :: rest) = rest) as Hrest.
  { rewrite filter_cons_False by (intros Hne; by apply Hne).
    by apply filter_row_fresh. }
  destruct (decide (columnCount firstRow < maxColumnCount block)%nat);
    destruct header as [h|];
    (eexists; split; [reflexivity|]; unfold structureRows;
     cbn [titleRow headerRow dataRows option_list app]);
    (split; [done|]; split; [done|]); rewrite ?Hrest.
  - (* title and header *)
    pose proof (filter_row_Permutation rest h Hdup'
                  ltac:(rewrite <-Hcandidates; by apply Helem)) as Hperm.
    assert (firstRow :: h :: filter (λ r, row r ≠ row h) rest ≡ₚ firstRow :: rest)
      as Hall by (by rewrite <-Hperm).
    split; [apply Permutation_length in Hall; simpl in *; lia|].
    split; [by rewrite Hall|]. split; [done|].
    apply sublist_cons, sublist_filter; apply _.
  - (* title, no header *)
    split; [simpl; lia|]. split; [done|]. split; [done|]. by apply sublist_cons.
  - (* header, no title *)
    pose proof (filter_row_Permutation (firstRow :: rest) h Hdup
                  ltac:(rewrite <-Hcandidates; by apply Helem)) as Hperm.
    split; [apply Permutation_length in Hperm; simpl in *; lia|].
    split; [by rewrite <-Hperm|]. split; [done|].
    apply sublist_filter; apply _.
  - (* neither *)
    split; [simpl; lia|]. done.
Qed.

(** C4, as stated, fails: the rows of a block without rows have pairwise
    distinct row numbers, and the classifier throws on it. *)
Lemma analyzeBlockStructure_counterexample :
  let noRows := {| startRow := 1; endRow := 0; rows := []; maxColumnCount := 0 |} in
  let options := {| headerPattern := None; noHeader := None |} in
  NoDup (row <$> rows noRows) ∧
  analyzeBlockStructure noRows options = Err TypeError.
Proof. split; [constructor | reflexivity]. Qed.

(** The classifier at a concrete titled block. *)
Lemma analyzeBlockStructure_partition_witness :
  let title := {| row := 1; columnCount := 1; labelValue := Some "Sales" |} in
  let month := {| row := 2; columnCount := 3; labelValue := Some "Month" |} in
  let jan := {| row := 3; columnCount := 3; labelValue := Some "Jan" |} in
  let block := {| startRow := 1; endRow := 3; rows := [title; month; jan];
                  maxColumnCount := 3 |} in
  let options := {| headerPattern := None; noHeader := None |} in
  ∃ structure,
    analyzeBlockStructure block options = Ok structure ∧
    detectTitleRow block = Ok (titleRow structure) ∧
    detectHeaderRow block options = Ok (headerRow structure) ∧
    (length (dataRows structure)
     + (if titleRow structure is Some _ then 1 else 0)
     + (if headerRow structure is Some _ then 1 else 0)
     = length (rows block))%nat ∧
    NoDup (row <$> structureRows structure) ∧
    structureRows structure ≡ₚ rows block ∧
    dataRows structure `sublist_of` rows block.
Proof.
  apply analyzeBlockStructure_partition; [discriminate|].
  apply (bool_decide_unpack _). vm_compute. exact I.
Defined.

(** ** Data extraction, row analysis and sheet loading *)

Lemma foldl_snoc_fmap {A B : Type} (f : A → B) (l : list A) (acc : list B) :
  foldl (λ acc x, acc ++ [f x]) acc l = acc ++ (f <$> l).
Proof.
  revert acc. induction l as [|x l IH]; intros acc; simpl.
  - by rewrite app_nil_r.
  - by rewrite IH, <-app_assoc.
Qed.

Section Extraction.
Context `{JsRuntime} `{XlsxUtils}.

(** The two loops of the extractor as two maps. *)
Lemma extractBlockData_fmap (sheet : WorkSheet) (block : TableBlock) :
  extractBlockData sheet block
  = (λ row, (λ col, cellText (cellAt sheet row col))
              <$> seqZ 0 (Z.of_nat (maxColumnCount block)))
    <$> seqZ (startRow block) (endRow block - startRow block + 1).
Proof.
  unfold extractBlockData. rewrite foldl_snoc_fmap. simpl.
  apply list_fmap_ext. intros _ row _. by rewrite foldl_snoc_fmap.
Qed.

Lemma cellText_defined (cell : CellObject) :
  v cell ≠ VUndefined → cellText (Some cell) = js_String (v cell).
Proof. unfold cellText. by destruct (v cell). Qed.

Lemma cellText_miss (cell : option CellObject) :
  cell = None ∨ (∃ c, cell = Some c ∧ v c = VUndefined) → cellText cell = "".
Proof. intros [->|(c & -> & Hc)]; [done|]. unfold cellText. by rewrite Hc. Qed.

(** C5.  For a block with [startRow ≤ endRow] the extractor returns
    [endRow - startRow + 1] rows of [maxColumnCount] strings each; the
    string at row offset [i] and column [j] is the string coercion of the
    value of the cell at row [startRow + i], column [j] when that value is
    defined, and the empty string when the cell or its value is missing.
    The extractor has no failing step. *)
Theorem extractBlockData_shape (sheet : WorkSheet) (block : TableBlock) :
  startRow block ≤ endRow block →
  Z.of_nat (length (extractBlockData sheet block))
  = endRow block - startRow block + 1 ∧
  Forall (λ rowData, length rowData = maxColumnCount block)
         (extractBlockData sheet block) ∧
  ∀ i j : nat,
    startRow block + Z.of_nat i ≤ endRow block → (j < maxColumnCount block)%nat →
    ∃ rowData text,
      extractBlockData sheet block !! i = Some rowData ∧
      rowData !! j = Some text ∧
      (∀ cell, cellAt sheet (startRow block + Z.of_nat i) (Z.of_nat j) = Some cell →
               v cell ≠ VUndefined → text = js_String (v cell)) ∧
      (cellAt sheet (startRow block + Z.of_nat i) (Z.of_nat j) = None ∨
       (∃ cell, cellAt sheet (startRow block + Z.of_nat i) (Z.of_nat j) = Some cell
                ∧ v cell = VUndefined) →
       text = "").
Proof.
  intros Hle. rewrite extractBlockData_fmap. split; [|split].
  - rewrite length_fmap, length_seqZ. lia.
  - apply Forall_fmap, Forall_forall. intros row _. simpl.
    rewrite length_fmap, length_seqZ. lia.
  - intros i j Hi Hj.
    exists ((λ col, cellText (cellAt sheet (startRow block + Z.of_nat i) col))
              <$> seqZ 0 (Z.of_nat (maxColumnCount block))),
           (cellText (cellAt sheet (startRow block + Z.of_nat i) (Z.of_nat j))).
    split; [|split; [|split]].
    + rewrite list_lookup_fmap, lookup_seqZ_lt by lia. done.
    + rewrite list_lookup_fmap, lookup_seqZ_lt by lia. done.
    + intros cell -> Hdefined. by apply cellText_defined.
    + apply cellText_miss.
Qed.

(** C10.  Two blocks with the same [startRow], [endRow] and
    [maxColumnCount] extract to the same grid of strings: the [rows]
    field of the block is not consulted. *)
Theorem extractBlockData_rows_irrelevant (sheet : WorkSheet)
    (block1 block2 : TableBlock) :
  startRow block1 = startRow block2 →
  endRow block1 = endRow block2 →
  maxColumnCount block1 = maxColumnCount block2 →
  extractBlockData sheet block1 = extractBlockData sheet block2.
Proof.
  intros Hstart Hend Hmax. unfold extractBlockData.
  by rewrite Hstart, Hend, Hmax.
Qed.

(** C7, as amended.  The label value is absent when the sheet has no cell
    at the label address, and it is absent only if there is no such cell or
    the cell has no value.  When the label cell has a value, the label
    value is present: the trimmed value if that is a string (the empty
    string for an empty one), and the string coercion of the value
    otherwise. *)
Theorem analyzeRow_labelValue (sheet : WorkSheet) (row maxCol : Z)
    (labelColumn : string) :
  (cells sheet !! labelAddress labelColumn row = None →
   labelValue (analyzeRow sheet row maxCol labelColumn) = None) ∧
  (labelValue (analyzeRow sheet row maxCol labelColumn) = None →
   cells sheet !! labelAddress labelColumn row = None ∨
   ∃ cell, cells sheet !! labelAddress labelColumn row = Some cell
           ∧ v cell = VUndefined) ∧
  ∀ cell, cells sheet !! labelAddress labelColumn row = Some cell →
    v cell ≠ VUndefined →
    (∀ str, v cell = VString str →
       labelValue (analyzeRow sheet row maxCol labelColumn) = Some (trim str)) ∧
    ((∀ str, v cell ≠ VString str) →
       labelValue (analyzeRow sheet row maxCol labelColumn)
       = Some (js_String (v cell))).
Proof.
  unfold analyzeRow. simpl.
  destruct (cells sheet !! labelAddress labelColumn row) as [cell|].
  - split; [done|]. split; [by destruct (v cell)|].
    intros ? [= <-] _. split.
    + by intros str ->.
    + intros Hother. destruct (v cell) as [|str| |]; try done.
      by destruct (Hother str).
  - split; [done|]. split; [by left|]. by intros cell.
Qed.

Context `{!XlsxReader}.

(** C9.  Once the workbook is parsed, [loadSheet] throws the no-sheets
    error exactly when the workbook declares no sheet, and otherwise
    returns the sheet stored under the first sheet name. *)
Theorem loadSheet_rule (data : Data) (type : DataType) (workbook : WorkBook) :
  XLSX_read data type = Ok workbook →
  (loadSheet data type = Err NoSheetsError ↔ sheetCount workbook = 0%nat) ∧
  (sheetCount workbook ≠ 0%nat →
   ∃ first rest,
     SheetNames workbook = Some (first :: rest) ∧
     loadSheet data type = Ok (Sheets workbook !! first)).
Proof.
  intros Hread. unfold loadSheet, sheetCount. rewrite Hread, bind_Ok.
  destruct (SheetNames workbook) as [[|first rest]|]; simpl.
  - split; [done|]. by intros [].
  - split; [done|]. intros _. by exists first, rest.
  - split; [done|]. by intros [].
Qed.
End Extraction.

(** ** The row scan *)

Lemma foldl_count {A : Type} (P : A → bool) (l : list A) (n : nat) :
  foldl (λ count x, if P x then S count else count) n l
  = (n + length (filter (λ x, P x = true) l))%nat.
Proof.
  revert n. induction l as [|x l IH]; intros n; simpl; [lia|].
  rewrite IH. destruct (P x) eqn:HP.
  - rewrite filter_cons_True by done. simpl. lia.
  - rewrite filter_cons_False by (by rewrite HP). lia.
Qed.

Section Segmentation.
Context `{JsRuntime} `{XlsxUtils}.
Variables (sheet : WorkSheet) (labelColumn : string).

(** The column loop counts the occupied cells of the row. *)
Lemma countColumns_filter (row maxCol : Z) :
  countColumns sheet row maxCol
  = length (filter (λ col, occupied (cellAt sheet row col) = true)
                   (seqZ 0 maxCol)).
Proof.
  exact (foldl_count (λ col, occupied (cellAt sheet row col)) (seqZ 0 maxCol) 0).
Qed.

Lemma countColumns_zero (row maxCol : Z) :
  countColumns sheet row maxCol = 0%nat
  ↔ ∀ col, 0 ≤ col < maxCol → occupied (cellAt sheet row col) = false.
Proof.
  rewrite countColumns_filter.
  destruct (filter _ _) as [|hit hits] eqn:Hfilter; simpl.
  - split; [|done]. intros _ col Hcol.
    destruct (occupied (cellAt sheet row col)) eqn:Hocc; [|done].
    assert (col ∈ filter (λ col, occupied (cellAt sheet row col) = true)
                         (seqZ 0 maxCol)) as Hin.
    { apply list_elem_of_filter. split; [done|]. apply elem_of_seqZ. lia. }
    rewrite Hfilter in Hin. by apply elem_of_nil in Hin.
  - split; [lia|]. intros Hempty.
    assert (hit ∈ filter (λ col, occupied (cellAt sheet row col) = true)
                         (seqZ 0 maxCol)) as Hin
      by (rewrite Hfilter; apply list_elem_of_here).
    apply list_elem_of_filter in Hin as [Hocc Hin].
    apply elem_of_seqZ in Hin. rewrite Hempty in Hocc by lia. done.
Qed.

(** The scan takes a row for empty exactly when none of the columns of
    the extent is occupied. *)
Lemma rowInfo_empty (row : Z) :
  columnCount (rowInfo sheet labelColumn row) = 0%nat ↔ ¬ rowOccupied sheet row.
Proof.
  unfold rowInfo, analyzeRow, rowOccupied. simpl. rewrite countColumns_zero.
  split.
  - intros Hempty (col & Hcol & Hocc). by rewrite Hempty in Hocc.
  - intros Hnone col Hcol.
    destruct (occupied (cellAt sheet row col)) eqn:Hocc; [|done].
    destruct Hnone. by exists col.
Qed.

Lemma rowInfo_occupied (row : Z) :
  columnCount (rowInfo sheet labelColumn row) ≠ 0%nat ↔ rowOccupied sheet row.
Proof.
  split.
  - intros Hcount. unfold rowInfo, analyzeRow in Hcount. simpl in Hcount.
    rewrite countColumns_filter in Hcount.
    destruct (filter _ _) as [|hit hits] eqn:Hfilter; [done|].
    assert (hit ∈ filter (λ col, occupied (cellAt sheet row col) = true)
                         (seqZ 0 (sheetMaxCol sheet))) as Hin
      by (rewrite Hfilter; apply list_elem_of_here).
    apply list_elem_of_filter in Hin as [Hocc Hin].
    apply elem_of_seqZ in Hin. exists hit. split; [lia | done].
  - intros Hocc Hzero. by apply rowInfo_empty in Hzero.
Qed.

Lemma runOf_single (k : Z) : runOf sheet labelColumn k k = [rowInfo sheet labelColumn k].
Proof.
  unfold runOf. replace (k - k + 1) with 1 by lia.
  rewrite seqZ_cons by lia. by rewrite seqZ_nil by lia.
Qed.

Lemma runOf_snoc (first last : Z) :
  first ≤ last + 1 →
  runOf sheet labelColumn first (last + 1)
  = runOf sheet labelColumn first last ++ [rowInfo sheet labelColumn (last + 1)].
Proof.
  intros Hle. unfold runOf.
  replace (last + 1 - first + 1) with ((last - first + 1) + 1) by lia.
  rewrite seqZ_app by lia. rewrite fmap_app. f_equal.
  rewrite seqZ_cons by lia. rewrite seqZ_nil by lia. simpl.
  do 2 f_equal. lia.
Qed.

Lemma runOf_rows (first last : Z) :
  row <$> runOf sheet labelColumn first last = seqZ first (last - first + 1).
Proof.
  unfold runOf. rewrite <-list_fmap_compose.
  rewrite <-(list_fmap_id (seqZ _ _)) at 2. by apply list_fmap_ext.
Qed.

Lemma runOf_length (first last : Z) :
  length (runOf sheet labelColumn first last) = Z.to_nat (last - first + 1).
Proof. unfold runOf. by rewrite length_fmap, length_seqZ. Qed.

Lemma runOf_last (first final : Z) :
  first ≤ final →
  last (runOf sheet labelColumn first final) = Some (rowInfo sheet labelColumn final).
Proof.
  intros Hle. unfold runOf.
  rewrite fmap_last, last_lookup, length_seqZ.
  rewrite lookup_seqZ_lt by lia. simpl. do 2 f_equal. lia.
Qed.

Lemma max_list_fmap {A : Type} (f : A → nat) (l : list A) :
  max_list (f <$> l) = max_list_with f l.
Proof. induction l as [|x l IH]; [done|]. simpl. by rewrite <-IH. Qed.

(** A run that fits the argument limit becomes a block. *)
Lemma createBlock_runOf (first final : Z) :
  first ≤ final → final - first + 1 ≤ argumentLimit →
  createBlock (runOf sheet labelColumn first final) first
  = Ok (runBlock sheet labelColumn first final).
Proof.
  intros Hle Hlimit. unfold createBlock, Math_max.
  rewrite length_fmap, runOf_length, decide_False by lia.
  rewrite bind_Ok, runOf_last by done.
  unfold runBlock. by rewrite max_list_fmap.
Qed.

(** A run with more rows than the argument limit makes the spread throw. *)
Lemma createBlock_tall (first final start : Z) :
  argumentLimit < final - first + 1 →
  createBlock (runOf sheet labelColumn first final) start = Err RangeError.
Proof.
  intros Htall. unfold createBlock, Math_max.
  rewrite length_fmap, runOf_length, decide_True by lia. done.
Qed.

Lemma closedBlock_mono (k k' : Z) (block : TableBlock) :
  k ≤ k' → closedBlock sheet labelColumn k block →
  closedBlock sheet labelColumn k' block.
Proof.
  intros Hk (first & last & -> & Hbounds & Hlast & Hlimit & Hocc & Hgap).
  exists first, last. repeat split; try done; lia.
Qed.

Lemma tallRunWithin_mono (k k' : Z) :
  k ≤ k' → tallRunWithin sheet k → tallRunWithin sheet k'.
Proof.
  intros Hk (first & final & Hbounds & Hfinal & Hocc & Htall).
  exists first, final. repeat split; try done; lia.
Qed.

Lemma ordered_snoc (bs : list TableBlock) (block : TableBlock) :
  ordered bs → Forall (λ b, endRow b + 1 < startRow block) bs →
  ordered (bs ++ [block]).
Proof.
  intros Hord Hall i j b1 b2 Hij Hi Hj.
  apply lookup_snoc_Some in Hj as [[Hjlt Hj]|[Hjeq <-]].
  - rewrite lookup_app_l in Hi by lia. exact (Hord i j b1 b2 Hij Hi Hj).
  - rewrite lookup_app_l in Hi by lia.
    rewrite Forall_forall in Hall. apply Hall.
    by eapply list_elem_of_lookup_2.
Qed.

(** One turn of the row loop keeps the invariant; it throws only when it
    closes a run with more rows than the argument limit. *)
Lemma scanRow_inv (k : Z) (st : Scan) :
  ScanInv sheet labelColumn k st →
  (∃ st', scanRow sheet (sheetMaxCol sheet) labelColumn st (k + 1) = Ok st'
          ∧ ScanInv sheet labelColumn (k + 1) st') ∨
  (scanRow sheet (sheetMaxCol sheet) labelColumn st (k + 1) = Err RangeError
   ∧ tallRunWithin sheet k).
Proof.
  intros [Hk Hclosed Hord Hcur Hcov].
  assert (Forall (closedBlock sheet labelColumn (k + 1)) (blocks st)) as Hclosed'.
  { eapply Forall_impl; [exact Hclosed|]. intros b. apply closedBlock_mono. lia. }
  unfold scanRow. fold (rowInfo sheet labelColumn (k + 1)).
  destruct (decide (columnCount (rowInfo sheet labelColumn (k + 1)) = 0%nat))
    as [Hempty|Hfull].
  - (* row [k + 1] is empty *)
    apply rowInfo_empty in Hempty.
    destruct (currentBlock st) as [|r cur] eqn:Ecur; simpl.
    + (* nothing to close *)
      left. exists st. split; [done|]. split; try done.
      * lia.
      * by rewrite Ecur.
      * intros row Hrow Hocc.
        destruct (decide (row = k + 1)) as [->|Hne]; [done|].
        rewrite Ecur. apply Hcov; [lia | done].
    + (* close the current block *)
      destruct Hcur as (Hstart & Hrun & Hocc & Hbefore). rewrite Hrun.
      destruct (decide (k - blockStartRow st + 1 ≤ argumentLimit)) as [Hfits|Htall].
      * left. rewrite createBlock_runOf, bind_Ok by lia.
        eexists. split; [reflexivity|]. split; simpl.
        -- lia.
        -- apply Forall_app. split; [done|]. apply Forall_singleton.
           exists (blockStartRow st), k. repeat split; try done; lia.
        -- by apply ordered_snoc.
        -- done.
        -- intros row Hrow Hrowocc.
           destruct (decide (row = k + 1)) as [->|Hne]; [done|].
           left. destruct (Hcov row ltac:(lia) Hrowocc) as [(b & Hb & Hin)|[_ Hge]].
           ++ exists b. split; [|done]. apply elem_of_app. by left.
           ++ eexists. split; [apply elem_of_app; right; apply list_elem_of_here|].
              simpl. lia.
      * right. rewrite createBlock_tall by lia. split; [done|].
        exists (blockStartRow st), k. repeat split; try done; lia.
  - (* row [k + 1] is occupied *)
    apply rowInfo_occupied in Hfull. left.
    destruct (currentBlock st) as [|r cur] eqn:Ecur.
    + (* it starts a block *)
      rewrite Hcur, decide_True by done.
      eexists. split; [reflexivity|]. split; simpl; try done.
      * lia.
      * split; [lia|]. split; [by rewrite runOf_single|]. split.
        -- intros row Hrow. by replace row with (k + 1) by lia.
        -- eapply Forall_impl; [exact Hclosed|].
           intros b (first & last & -> & ? & ? & _). simpl. lia.
      * intros row Hrow Hrowocc.
        destruct (decide (row = k + 1)) as [->|Hne]; [right; split; [done|lia]|].
        destruct (Hcov row ltac:(lia) Hrowocc) as [?|[? _]]; [by left | done].
    + (* it extends the current block *)
      destruct Hcur as (Hstart & Hrun & Hocc & Hbefore).
      rewrite decide_False by lia.
      eexists. split; [reflexivity|]. split; simpl; try done.
      * lia.
      * rewrite runOf_snoc, <-Hrun by lia. simpl.
        split; [lia|]. split; [done|]. split; [|done].
        intros row Hrow.
        destruct (decide (row = k + 1)) as [->|Hne]; [done|]. apply Hocc. lia.
      * intros row Hrow Hrowocc.
        destruct (decide (row = k + 1)) as [->|Hne]; [right; split; [done|lia]|].
        destruct (Hcov row ltac:(lia) Hrowocc) as [?|[_ ?]]; [by left|].
        right. split; [done|lia].
Qed.

(** The invariant holds before the first row. *)
Lemma ScanInv_init :
  ScanInv sheet labelColumn 0
    {| blocks := []; currentBlock := []; blockStartRow := -1 |}.
Proof.
  split; simpl; try done. intros row Hrow. lia.
Qed.

(** The loop over [n] more rows keeps the invariant, or throws at a run
    with more rows than the argument limit. *)
Lemma scanRows_inv (n : nat) (k : Z) (st : Scan) :
  ScanInv sheet labelColumn k st →
  (∃ st', scanRows sheet (sheetMaxCol sheet) labelColumn st
                   (seqZ (k + 1) (Z.of_nat n)) = Ok st'
          ∧ ScanInv sheet labelColumn (k + Z.of_nat n) st') ∨
  (scanRows sheet (sheetMaxCol sheet) labelColumn st
            (seqZ (k + 1) (Z.of_nat n)) = Err RangeError
   ∧ tallRunWithin sheet (k + Z.of_nat n)).
Proof.
  revert k st. induction n as [|n IH]; intros k st Hinv.
  - left. exists st. rewrite seqZ_nil by lia. split; [done|].
    by replace (k + Z.of_nat 0) with k by lia.
  - rewrite seqZ_cons by lia. simpl scanRows.
    replace (Z.pred (Z.of_nat (S n))) with (Z.of_nat n) by lia.
    replace (Z.succ (k + 1)) with (k + 1 + 1) by lia.
    replace (k + Z.of_nat (S n)) with (k + 1 + Z.of_nat n) by lia.
    destruct (scanRow_inv k st Hinv) as [(st1 & -> & Hinv1)|[-> Htall]].
    + rewrite bind_Ok. by apply IH.
    + right. split; [done|]. eapply tallRunWithin_mono; [|exact Htall]. lia.
Qed.

Lemma closedBlock_final (k : Z) (block : TableBlock) :
  k ≤ Z.max 0 (sheetMaxRow sheet) →
  closedBlock sheet labelColumn k block → finalBlock sheet labelColumn block.
Proof.
  intros Hk (first & final & -> & Hbounds & Hlast & Hlimit & Hocc & _).
  exists first, final. repeat split; try done; lia.
Qed.

(** The segmenter returns a segmentation of the sheet into runs of
    occupied rows, or throws a [RangeError] on a sheet with a run of more
    rows than the argument limit. *)
Lemma detectTableBlocks_outcome :
  (∃ bs, detectTableBlocks sheet labelColumn = Ok bs
         ∧ Segmented sheet labelColumn bs) ∨
  (detectTableBlocks sheet labelColumn = Err RangeError ∧ tallRun sheet).
Proof.
  unfold detectTableBlocks.
  set (n := Z.to_nat (sheetMaxRow sheet)).
  assert (seqZ 1 (sheetMaxRow sheet) = seqZ (0 + 1) (Z.of_nat n)) as ->.
  { unfold seqZ, n. by rewrite Nat2Z.id. }
  assert (tallRunWithin sheet (Z.max 0 (sheetMaxRow sheet)) → tallRun sheet)
    as Htall.
  { intros (first & final & Hbounds & Hfinal & Hocc & Htall).
    exists first, final. repeat split; try done; lia. }
  assert (0 + Z.of_nat n = Z.max 0 (sheetMaxRow sheet)) as HK by lia.
  destruct (scanRows_inv n 0 _ ScanInv_init)
    as [(st & -> & [Hk Hclosed Hord Hcur Hcov])|[-> Hrun]];
    rewrite HK in *; clear HK; [|right; split; [done | by apply Htall]].
  rewrite bind_Ok.
  assert (Forall (finalBlock sheet labelColumn) (blocks st)) as Hfinal.
  { eapply Forall_impl; [exact Hclosed|].
    intros b. by apply closedBlock_final. }
  assert (∀ (i : nat) b, blocks st !! i = Some b →
            ¬ rowOccupied sheet (endRow b + 1)) as Hgap.
  { intros i b Hi. rewrite Forall_forall in Hclosed.
    destruct (Hclosed b) as (first & final & -> & _ & _ & _ & _ & Hgap);
      [by eapply list_elem_of_lookup_2 | done]. }
  destruct (currentBlock st) as [|r cur] eqn:Ecur; simpl.
  - (* no block is open after the last row *)
    left. exists (blocks st). split; [done|]. split; try done.
    + intros i b1 b2 Hi _. by eapply Hgap.
    + intros row Hrow Hocc.
      destruct (Hcov row ltac:(lia) Hocc) as [?|[? _]]; done.
  - (* the last block runs to the last row *)
    destruct Hcur as (Hstart & Hrun & Hocc & Hbefore). rewrite Hrun.
    destruct (decide (Z.max 0 (sheetMaxRow sheet) - blockStartRow st + 1
                      ≤ argumentLimit)) as [Hfits|Hlong].
    + left. rewrite createBlock_runOf, bind_Ok by lia.
      eexists. split; [reflexivity|]. split.
      * apply Forall_app. split; [done|]. apply Forall_singleton.
        eexists _, _. split; [reflexivity|]. repeat split; try done; lia.
      * by apply ordered_snoc.
      * intros i b1 b2 Hi Hsucc. apply (Hgap i).
        apply lookup_lt_Some in Hsucc. rewrite length_app in Hsucc. simpl in Hsucc.
        rewrite lookup_app_l in Hi by lia. done.
      * intros row Hrow Hrowocc.
        destruct (Hcov row ltac:(lia) Hrowocc) as [(b & Hb & Hin)|[_ Hge]].
        -- exists b. split; [|done]. apply elem_of_app. by left.
        -- eexists. split; [apply elem_of_app; right; apply list_elem_of_here|].
           simpl. lia.
    + right. rewrite createBlock_tall by lia. split; [done|].
      apply Htall. exists (blockStartRow st), (Z.max 0 (sheetMaxRow sheet)).
      repeat split; try done; lia.
Qed.

(** A segmentation leaves no run with more rows than the argument limit:
    such a run would lie inside one block. *)
Lemma Segmented_not_tall (bs : list TableBlock) :
  Segmented sheet labelColumn bs → ¬ tallRun sheet.
Proof.
  intros [Hfinal Hord Hgap Hcov] (first & final & Hbounds & Hmax & Hocc & Htall).
  rewrite Forall_forall in Hfinal.
  assert (∀ m : nat, first + Z.of_nat m ≤ final →
            ∃ b, b ∈ bs ∧ startRow b ≤ first ∧ first + Z.of_nat m ≤ endRow b)
    as Hinside.
  { induction m as [|m IH]; intros Hm.
    - destruct (Hcov first ltac:(lia) (Hocc first ltac:(lia))) as (b & Hb & Hin).
      exists b. split; [done|]. lia.
    - destruct (IH ltac:(lia)) as (b & Hb & Hstart & Hend).
      destruct (decide (first + Z.of_nat (S m) ≤ endRow b)) as [?|Hshort];
        [by exists b|].
      destruct (Hcov (first + Z.of_nat (S m)) ltac:(lia)
                  (Hocc (first + Z.of_nat (S m)) ltac:(lia)))
        as (b' & Hb' & Hin').
      apply list_elem_of_lookup in Hb as [i Hi].
      apply list_elem_of_lookup in Hb' as [j Hj].
      destruct (Nat.lt_trichotomy i j) as [Hlt|[->|Hgt]].
      + pose proof (Hord i j b b' Hlt Hi Hj). lia.
      + rewrite Hi in Hj. injection Hj as <-. lia.
      + pose proof (Hord j i b' b Hgt Hj Hi). lia. }
  destruct (Hinside (Z.to_nat (final - first)) ltac:(lia))
    as (b & Hb & Hstart & Hend).
  destruct (Hfinal b Hb) as (first' & final' & -> & _ & _ & Hlimit & _).
  simpl in *. lia.
Qed.

(** Whenever the segmenter returns, its result is a segmentation. *)
Lemma detectTableBlocks_Ok_segmented (bs : list TableBlock) :
  detectTableBlocks sheet labelColumn = Ok bs → Segmented sheet labelColumn bs.
Proof.
  intros Hrun.
  destruct detectTableBlocks_outcome as [(bs' & Hrun' & Hseg)|[Hrun' _]];
    rewrite Hrun in Hrun'; [|discriminate].
  by injection Hrun' as ->.
Qed.

(** The segmenter returns on every sheet without a run of more rows than
    the argument limit, and throws a [RangeError] on every other sheet. *)
Lemma detectTableBlocks_returns :
  ¬ tallRun sheet → ∃ bs, detectTableBlocks sheet labelColumn = Ok bs.
Proof.
  intros Hshort.
  destruct detectTableBlocks_outcome as [(bs & Hrun & _)|[_ Htall]]; [|done].
  by exists bs.
Qed.

Lemma detectTableBlocks_throws :
  tallRun sheet → detectTableBlocks sheet labelColumn = Err RangeError.
Proof.
  intros Htall.
  destruct detectTableBlocks_outcome as [(bs & _ & Hseg)|[Hrun _]]; [|done].
  by apply Segmented_not_tall in Hseg.
Qed.
End Segmentation.

(** ** Segmentation *)

Lemma max_list_with_ge {A : Type} (f : A → nat) (l : list A) (x : A) :
  x ∈ l → (f x ≤ max_list_with f l)%nat.
Proof. induction 1; simpl; lia. Qed.

Lemma max_list_with_attained {A : Type} (f : A → nat) (l : list A) :
  l ≠ [] → ∃ x, x ∈ l ∧ f x = max_list_with f l.
Proof.
  induction l as [|x l IH]; [done|]. intros _. simpl.
  destruct (decide (l = [])) as [->|Hl].
  - exists x. split; [apply list_elem_of_here | simpl; lia].
  - destruct (IH Hl) as (y & Hy & Hmax).
    destruct (decide (f x ≤ max_list_with f l)%nat).
    + exists y. split; [by apply list_elem_of_further | lia].
    + exists x. split; [apply list_elem_of_here | lia].
Qed.

Section SegmentationResult.
Context `{JsRuntime} `{XlsxUtils}.
Variables (sheet : WorkSheet) (labelColumn : string).

(** What being a run of occupied rows says about the fields of a block. *)
Lemma finalBlock_fields (block : TableBlock) :
  finalBlock sheet labelColumn block →
  rows block ≠ [] ∧
  row <$> rows block = seqZ (startRow block) (endRow block - startRow block + 1) ∧
  1 ≤ startRow block ∧ startRow block ≤ endRow block ∧
  endRow block ≤ sheetMaxRow sheet ∧
  Forall (λ r, (1 ≤ columnCount r)%nat ∧
               r = analyzeRow sheet (row r) (sheetMaxCol sheet) labelColumn)
         (rows block) ∧
  Forall (λ r, (columnCount r ≤ maxColumnCount block)%nat) (rows block) ∧
  (∃ r, r ∈ rows block ∧ columnCount r = maxColumnCount block).
Proof.
  intros (first & final & -> & Hbounds & Hlast & Hlimit & Hocc). simpl.
  assert (runOf sheet labelColumn first final ≠ []) as Hne.
  { intros Hnil. apply (f_equal length) in Hnil.
    rewrite runOf_length in Hnil. simpl in Hnil. lia. }
  split; [done|]. split; [apply runOf_rows|].
  split; [lia|]. split; [lia|]. split; [done|]. split; [|split].
  - unfold runOf. apply Forall_fmap, Forall_forall. intros n Hn.
    unfold compose. apply elem_of_seqZ in Hn. split; [|done].
    assert (columnCount (rowInfo sheet labelColumn n) ≠ 0%nat)
      by (apply rowInfo_occupied, Hocc; lia).
    lia.
  - apply Forall_forall. intros r Hr. by apply max_list_with_ge.
  - by apply max_list_with_attained.
Qed.

Lemma finalBlock_rowInBlock (block : TableBlock) (n : Z) :
  finalBlock sheet labelColumn block →
  rowInBlock n block ↔ startRow block ≤ n ≤ endRow block.
Proof.
  intros (first & final & -> & _). unfold rowInBlock. simpl.
  rewrite runOf_rows, elem_of_seqZ. lia.
Qed.

(** The blocks of the segmenter carry the maximum column count of their
    rows, so a detected single-row block never has a title. *)
Lemma detectTableBlocks_maxColumnCount (bs : list TableBlock) (b : TableBlock) :
  detectTableBlocks sheet labelColumn = Ok bs → b ∈ bs →
  maxColumnCount b = max_list_with columnCount (rows b).
Proof.
  intros Hrun Hb.
  destruct (detectTableBlocks_Ok_segmented sheet labelColumn bs Hrun)
    as [Hfinal _ _ _].
  rewrite Forall_forall in Hfinal.
  by destruct (Hfinal b Hb) as (first & final & -> & _).
Qed.

Lemma detectTitleRow_detected_single (bs : list TableBlock) (b : TableBlock)
    (only : BlockRow) :
  detectTableBlocks sheet labelColumn = Ok bs → b ∈ bs → rows b = [only] →
  detectTitleRow b = Ok None.
Proof.
  intros Hrun Hb Hrows.
  rewrite (detectTitleRow_cons _ _ _ Hrows).
  rewrite (detectTableBlocks_maxColumnCount bs b Hrun Hb), Hrows. simpl.
  destruct (decide _); [lia | done].
Qed.

(** C1, at the inputs on which it fails.  On a sheet that has, among the
    rows of its row extent, a run [first .. final] of occupied rows with
    more rows than the engine takes arguments in one call, the segmenter
    returns no blocks: [Math.max(...rows.map(...))] throws a [RangeError]
    when the block of that run is created. *)
Theorem detectTableBlocks_tall_block (first final : Z) :
  1 ≤ first ≤ final → final ≤ sheetMaxRow sheet →
  (∀ n, first ≤ n ≤ final → rowOccupied sheet n) →
  argumentLimit < final - first + 1 →
  detectTableBlocks sheet labelColumn = Err RangeError.
Proof.
  intros Hbounds Hfinal Hocc Htall.
  apply detectTableBlocks_throws. by exists first, final.
Qed.

(** X11.  The segmenter returns on every sheet without a run of occupied
    rows that has more rows than the engine takes arguments.  Whenever it
    returns, there is no such run, and: every block has at least one row;
    its row numbers are [startRow .. endRow], each once and in increasing
    order, within the row extent; every member row is the descriptor of
    its row and has a column count of at least one; [maxColumnCount]
    bounds the column counts of the rows and is attained by one of them.
    Every row of the row extent that has an occupied column of the column
    extent belongs to exactly one block.  Between two consecutive blocks
    lies a row without any occupied column of the extent, and blocks come
    in strictly increasing row order. *)
Theorem detectTableBlocks_segmentation :
  (¬ tallRun sheet → ∃ bs, detectTableBlocks sheet labelColumn = Ok bs) ∧
  ∀ bs,
    detectTableBlocks sheet labelColumn = Ok bs →
    ¬ tallRun sheet ∧
    (∀ b, b ∈ bs →
       rows b ≠ [] ∧
       row <$> rows b = seqZ (startRow b) (endRow b - startRow b + 1) ∧
       1 ≤ startRow b ∧ startRow b ≤ endRow b ∧ endRow b ≤ sheetMaxRow sheet ∧
       Forall (λ r, (1 ≤ columnCount r)%nat ∧
                    r = analyzeRow sheet (row r) (sheetMaxCol sheet) labelColumn)
              (rows b) ∧
       Forall (λ r, (columnCount r ≤ maxColumnCount b)%nat) (rows b) ∧
       (∃ r, r ∈ rows b ∧ columnCount r = maxColumnCount b)) ∧
    (∀ n, 1 ≤ n ≤ sheetMaxRow sheet → rowOccupied sheet n →
       ∃ (i : nat) b,
         bs !! i = Some b ∧ rowInBlock n b ∧
         ∀ (j : nat) b', bs !! j = Some b' → rowInBlock n b' → j = i) ∧
    (∀ (i : nat) b1 b2, bs !! i = Some b1 → bs !! S i = Some b2 →
       endRow b1 + 1 < startRow b2 ∧ ¬ rowOccupied sheet (endRow b1 + 1)) ∧
    (∀ (i j : nat) b1 b2, (i < j)%nat → bs !! i = Some b1 → bs !! j = Some b2 →
       endRow b1 < startRow b2).
Proof.
  split; [apply detectTableBlocks_returns|].
  intros bs Hrun.
  pose proof (detectTableBlocks_Ok_segmented sheet labelColumn bs Hrun) as Hseg.
  split; [by eapply Segmented_not_tall|].
  destruct Hseg as [Hfinal Hord Hgap Hcov].
  rewrite Forall_forall in Hfinal.
  assert (∀ (i : nat) b, bs !! i = Some b → finalBlock sheet labelColumn b) as Hat.
  { intros i b Hi. apply Hfinal. by eapply list_elem_of_lookup_2. }
  split; [|split; [|split]].
  - intros b Hb. by apply finalBlock_fields, Hfinal.
  - intros n Hn Hocc.
    destruct (Hcov n Hn Hocc) as (b & Hb & Hin).
    apply list_elem_of_lookup in Hb as [i Hi].
    exists i, b. split; [done|]. split.
    { apply finalBlock_rowInBlock; [by eapply Hat | done]. }
    intros j b' Hj Hin'.
    apply finalBlock_rowInBlock in Hin'; [|by eapply Hat].
    destruct (finalBlock_fields b (Hat i b Hi)) as (_ & _ & _ & Hle & _).
    destruct (finalBlock_fields b' (Hat j b' Hj)) as (_ & _ & _ & Hle' & _).
    destruct (Nat.lt_trichotomy i j) as [Hlt|[Heq|Hgt]]; [|done|].
    + pose proof (Hord i j b b' Hlt Hi Hj). lia.
    + pose proof (Hord j i b' b Hgt Hj Hi). lia.
  - intros i b1 b2 Hi Hsucc. split; [|by eapply Hgap].
    apply (Hord i (S i) b1 b2); [lia | done | done].
  - intros i j b1 b2 Hij Hi Hj.
    pose proof (Hord i j b1 b2 Hij Hi Hj). lia.
Qed.

(** C6.  When no row of the row extent has an occupied column of the
    column extent, the segmenter returns the empty sequence; it does not
    throw. *)
Theorem detectTableBlocks_empty :
  (∀ n col, 1 ≤ n ≤ sheetMaxRow sheet → 0 ≤ col < sheetMaxCol sheet →
     occupied (cellAt sheet n col) = false) →
  detectTableBlocks sheet labelColumn = Ok [].
Proof.
  intros Hempty.
  destruct (detectTableBlocks_outcome sheet labelColumn)
    as [(bs & -> & [Hfinal _ _ _])|[_ (first & final & Hbounds & Hlast & Hocc & _)]].
  - destruct bs as [|b bs]; [done|].
    apply Forall_cons in Hfinal
      as [(first & final & _ & Hbounds & Hlast & _ & Hocc) _].
    destruct (Hocc first ltac:(lia)) as (col & Hcol & Hcell).
    rewrite Hempty in Hcell by lia. done.
  - destruct (Hocc first ltac:(lia)) as (col & Hcol & Hcell).
    rewrite Hempty in Hcell by lia. done.
Qed.
End SegmentationResult.

(** ** Dependence on the sheet *)

Lemma foldl_ext_elem {A B : Type} (f g : B → A → B) (l : list A) (b : B) :
  (∀ acc x, x ∈ l → f acc x = g acc x) → foldl f b l = foldl g b l.
Proof.
  revert b. induction l as [|x l IH]; intros b Hfg; [done|]. simpl.
  rewrite Hfg by apply list_elem_of_here.
  apply IH. intros acc y Hy. apply Hfg. by apply list_elem_of_further.
Qed.

Section BlockShape.
Context `{JsRuntime}.

(** Row lists of the same shape make the same block up to labels, or
    are both too long to be spread. *)
Lemma createBlock_shape (rows1 rows2 : list BlockRow) (start : Z) :
  shapeOfRow <$> rows1 = shapeOfRow <$> rows2 →
  sameOutcome (λ b1 b2, shapeOfBlock b1 = shapeOfBlock b2)
              (createBlock rows1 start) (createBlock rows2 start).
Proof.
  intros Hshape. unfold createBlock, Math_max.
  assert (shapeOfRow <$> last rows1 = shapeOfRow <$> last rows2) as Hlast
    by (by rewrite <-!fmap_last, Hshape).
  assert (columnCount <$> rows1 = columnCount <$> rows2) as Hcounts.
  { apply (f_equal (fmap snd)) in Hshape.
    rewrite <-!list_fmap_compose in Hshape. exact Hshape. }
  rewrite Hcounts.
  destruct (decide (argumentLimit < _)); [done|]. rewrite !bind_Ok.
  destruct (last rows1) as [r1|], (last rows2) as [r2|]; simpl in *; try done.
  injection Hlast as Hrow _. unfold shapeOfBlock. simpl. by rewrite Hrow, Hshape.
Qed.
End BlockShape.

Section Extent.
Context `{JsRuntime} `{XlsxUtils}.
Variables (sheet1 sheet2 : WorkSheet) (labelColumn : string).

Lemma countColumns_agree (n maxCol : Z) :
  (∀ col, 0 ≤ col < maxCol → cellAt sheet1 n col = cellAt sheet2 n col) →
  countColumns sheet1 n maxCol = countColumns sheet2 n maxCol.
Proof.
  intros Hagree. unfold countColumns. apply foldl_ext_elem.
  intros count col Hcol%elem_of_seqZ. cbv zeta.
  fold (cellAt sheet1 n col). fold (cellAt sheet2 n col).
  by rewrite Hagree by lia.
Qed.

Lemma scanRow_shape (maxCol : Z) (st1 st2 : Scan) (n : Z) :
  countColumns sheet1 n maxCol = countColumns sheet2 n maxCol →
  sameScan st1 st2 →
  sameOutcome sameScan (scanRow sheet1 maxCol labelColumn st1 n)
                       (scanRow sheet2 maxCol labelColumn st2 n).
Proof.
  intros Hcount (Hblocks & Hcur & Hstart). unfold scanRow.
  assert (length (currentBlock st1) = length (currentBlock st2)) as Hlen
    by (by rewrite <-(length_fmap shapeOfRow), Hcur, length_fmap).
  assert (columnCount (analyzeRow sheet1 n maxCol labelColumn)
          = columnCount (analyzeRow sheet2 n maxCol labelColumn)) as Hcc
    by exact Hcount.
  destruct (decide (columnCount (analyzeRow sheet1 n maxCol labelColumn) = 0%nat)),
           (decide (columnCount (analyzeRow sheet2 n maxCol labelColumn) = 0%nat));
    try lia.
  - destruct (decide (0 < length (currentBlock st1))%nat),
             (decide (0 < length (currentBlock st2))%nat); try lia; [|done].
    pose proof (createBlock_shape _ _ (blockStartRow st2) Hcur) as Hblock.
    rewrite Hstart.
    destruct (createBlock (currentBlock st1) _) as [b1|],
             (createBlock (currentBlock st2) _) as [b2|];
      try done.
    change (shapeOfBlock b1 = shapeOfBlock b2) in Hblock.
    split; [|done]. cbn [blocks].
    by rewrite !fmap_app, Hblocks, !list_fmap_singleton, Hblock.
  - split; [done|]. simpl. split.
    + rewrite !fmap_app, Hcur. simpl. unfold shapeOfRow at 2 4.
      by rewrite Hcc.
    + rewrite Hstart. by destruct (decide (blockStartRow st2 = -1)).
Qed.

Lemma scanRows_shape (maxCol : Z) (todo : list Z) (st1 st2 : Scan) :
  (∀ n, n ∈ todo → countColumns sheet1 n maxCol = countColumns sheet2 n maxCol) →
  sameScan st1 st2 →
  sameOutcome sameScan (scanRows sheet1 maxCol labelColumn st1 todo)
                       (scanRows sheet2 maxCol labelColumn st2 todo).
Proof.
  revert st1 st2. induction todo as [|n todo IH]; intros st1 st2 Hcount Hsame.
  - done.
  - simpl.
    pose proof (scanRow_shape maxCol st1 st2 n
                  (Hcount n ltac:(apply list_elem_of_here)) Hsame) as Hstep.
    destruct (scanRow sheet1 _ _ st1 n), (scanRow sheet2 _ _ st2 n);
      simpl in *; try done.
    apply IH; [|done].
    intros m Hm. apply Hcount. by apply list_elem_of_further.
Qed.

Lemma scanRows_ext (maxCol : Z) (todo : list Z) (st : Scan) :
  (∀ n, n ∈ todo → analyzeRow sheet1 n maxCol labelColumn
                   = analyzeRow sheet2 n maxCol labelColumn) →
  scanRows sheet1 maxCol labelColumn st todo
  = scanRows sheet2 maxCol labelColumn st todo.
Proof.
  revert st. induction todo as [|n todo IH]; intros st Hrows; [done|]. simpl.
  assert (scanRow sheet1 maxCol labelColumn st n
          = scanRow sheet2 maxCol labelColumn st n) as ->.
  { unfold scanRow. by rewrite Hrows by apply list_elem_of_here. }
  destruct (scanRow sheet2 _ _ st n); [|done]. rewrite !bind_Ok.
  apply IH. intros m Hm. apply Hrows. by apply list_elem_of_further.
Qed.

Hypothesis Href : ref sheet1 = ref sheet2.
Hypothesis Hextent : agreeOnExtent sheet1 sheet2.

Lemma sheetMaxRow_agree : sheetMaxRow sheet1 = sheetMaxRow sheet2.
Proof. unfold sheetMaxRow, sheetRange. by rewrite Href. Qed.

Lemma sheetMaxCol_agree : sheetMaxCol sheet1 = sheetMaxCol sheet2.
Proof. unfold sheetMaxCol, sheetRange. by rewrite Href. Qed.

Lemma countColumns_extent (n : Z) :
  n ∈ seqZ 1 (sheetMaxRow sheet1) →
  countColumns sheet1 n (sheetMaxCol sheet1)
  = countColumns sheet2 n (sheetMaxCol sheet1).
Proof.
  intros Hn%elem_of_seqZ. apply countColumns_agree.
  intros col Hcol. apply Hextent; lia.
Qed.

(** Up to label values, the result only depends on the cells of the
    scanned rectangle. *)
Lemma detectTableBlocks_shape :
  sameOutcome (λ bs1 bs2, shapeOfBlock <$> bs1 = shapeOfBlock <$> bs2)
              (detectTableBlocks sheet1 labelColumn)
              (detectTableBlocks sheet2 labelColumn).
Proof.
  unfold detectTableBlocks.
  rewrite <-sheetMaxRow_agree, <-sheetMaxCol_agree.
  pose proof (scanRows_shape (sheetMaxCol sheet1) (seqZ 1 (sheetMaxRow sheet1))
                {| blocks := []; currentBlock := []; blockStartRow := -1 |}
                {| blocks := []; currentBlock := []; blockStartRow := -1 |}
                countColumns_extent ltac:(done)) as Hscan.
  destruct (scanRows sheet1 _ _ _ _) as [st1|], (scanRows sheet2 _ _ _ _) as [st2|];
    try done.
  destruct Hscan as (Hblocks & Hcur & Hstart). rewrite !bind_Ok.
  assert (length (currentBlock st1) = length (currentBlock st2)) as Hlen
    by (by rewrite <-(length_fmap shapeOfRow), Hcur, length_fmap).
  destruct (decide (0 < length (currentBlock st1))%nat),
           (decide (0 < length (currentBlock st2))%nat); try lia; [|done].
  pose proof (createBlock_shape _ _ (blockStartRow st2) Hcur) as Hblock.
  rewrite Hstart.
  destruct (createBlock (currentBlock st1) _) as [b1|],
           (createBlock (currentBlock st2) _) as [b2|];
    try done.
  change (shapeOfBlock b1 = shapeOfBlock b2) in Hblock.
  rewrite !bind_Ok. simpl.
  by rewrite !fmap_app, Hblocks, !list_fmap_singleton, Hblock.
Qed.

Lemma detectTableBlocks_labels :
  agreeOnLabels sheet1 sheet2 labelColumn →
  detectTableBlocks sheet1 labelColumn = detectTableBlocks sheet2 labelColumn.
Proof.
  intros Hlabels. unfold detectTableBlocks.
  rewrite <-sheetMaxRow_agree, <-sheetMaxCol_agree.
  rewrite (scanRows_ext (sheetMaxCol sheet1)); [done|].
  intros n Hn. unfold analyzeRow.
  rewrite (countColumns_extent n Hn).
  apply elem_of_seqZ in Hn. by rewrite Hlabels by lia.
Qed.

(** C8, as amended.  On two sheets with the same reference range and the
    same cells in the scanned rectangle (rows [1 .. maxRow], columns
    [0 .. maxCol - 1]) the segmenter has the same outcome: it returns on
    both or throws the same exception on both, and the two block sequences
    agree on [startRow], [endRow], [maxColumnCount] and on the row numbers
    and column counts of their rows.  The label values come from the label cells, which the
    scan reads wherever the label column lies: the results are identical
    when the sheets hold the same label cell in every scanned row, which
    is the case when the label column is a column of the extent. *)
Theorem detectTableBlocks_extent :
  sameOutcome (λ bs1 bs2, shapeOfBlock <$> bs1 = shapeOfBlock <$> bs2)
              (detectTableBlocks sheet1 labelColumn)
              (detectTableBlocks sheet2 labelColumn) ∧
  (agreeOnLabels sheet1 sheet2 labelColumn →
   detectTableBlocks sheet1 labelColumn = detectTableBlocks sheet2 labelColumn) ∧
  (labelInExtent sheet1 labelColumn →
   detectTableBlocks sheet1 labelColumn = detectTableBlocks sheet2 labelColumn).
Proof.
  split; [|split].
  - exact detectTableBlocks_shape.
  - apply detectTableBlocks_labels.
  - intros Hlabel. apply detectTableBlocks_labels.
    intros n Hn. destruct (Hlabel n Hn) as (col & Hcol & ->).
    by apply Hextent.
Qed.
End Extent.

(** ** The theorems at concrete worksheets *)

Section Concrete.
#[local] Existing Instance Sample.runtime.
#[local] Existing Instance Sample.utils.
#[local] Existing Instance Sample.reader.
Import Sample.

(** The two edge cases of the test suite: a sheet with a single cell and
    a sheet with a reference range but no cell. *)
Example detectTableBlocks_single_cell :
  detectTableBlocks (sheet "A1:A1" [("A1", text "Single Row")]) "A"
  = Ok [{| startRow := 1; endRow := 1;
           rows := [{| row := 1; columnCount := 1;
                       labelValue := Some "Single Row" |}];
           maxColumnCount := 1 |}].
Proof. reflexivity. Qed.

Example detectTableBlocks_no_cell :
  detectTableBlocks (sheet "A1:A1" []) "A" = Ok [].
Proof. reflexivity. Qed.

(** Two blocks separated by an empty row; the label of row 1 is trimmed. *)
Example detectTableBlocks_two_blocks :
  detectTableBlocks
    (sheet "A1:C5" [("A1", text " Stock "); ("A2", text "Item"); ("B2", text "Qty");
                    ("C2", num 3); ("B4", text "x"); ("B5", text "y");
                    ("C5", text "z")]) "A"
  = Ok [{| startRow := 1; endRow := 2;
           rows := [{| row := 1; columnCount := 1; labelValue := Some "Stock" |};
                    {| row := 2; columnCount := 3; labelValue := Some "Item" |}];
           maxColumnCount := 3 |};
        {| startRow := 4; endRow := 5;
           rows := [{| row := 4; columnCount := 1; labelValue := None |};
                    {| row := 5; columnCount := 2; labelValue := None |}];
           maxColumnCount := 2 |}].
Proof. reflexivity. Qed.

(** C7, as stated, fails: a label cell that holds the empty string is
    unoccupied, yet the label value is present (the empty string). *)
Lemma analyzeRow_labelValue_counterexample :
  let blank := sheet "A1:B1" [("A1", text ""); ("B1", num 7)] in
  labelCellUnoccupied blank "A" 1 ∧
  labelValue (analyzeRow blank 1 2 "A") = Some "".
Proof. split; reflexivity. Qed.

(** The label values of a text cell, a number cell and a missing cell. *)
Lemma analyzeRow_labelValue_witness :
  let grid := sheet "A1:B3" [("A1", text " Month "); ("A2", num 12); ("B3", num 1)] in
  labelValue (analyzeRow grid 1 2 "A") = Some "Month" ∧
  labelValue (analyzeRow grid 2 2 "A") = Some "12" ∧
  labelValue (analyzeRow grid 3 2 "A") = None.
Proof.
  intros grid. split; [|split].
  - destruct (analyzeRow_labelValue grid 1 2 "A") as (_ & _ & Hvalue).
    exact (proj1 (Hvalue (text " Month ") eq_refl ltac:(discriminate))
                 " Month " eq_refl).
  - destruct (analyzeRow_labelValue grid 2 2 "A") as (_ & _ & Hvalue).
    apply (Hvalue (num 12) eq_refl ltac:(discriminate)).
    intros str. discriminate.
  - exact (proj1 (analyzeRow_labelValue grid 3 2 "A") eq_refl).
Defined.

(** C8, as stated, fails twice.  The sheets of the first pair declare the
    range [A1:A1] and hold the same cell in it, but with label column
    ["B"] the scan reads cell [B1], outside the range, and the label
    values differ.  The sheets of the second pair declare the range
    [B1:B1] and hold the same cell in it, but the scan counts the columns
    from column A on, and the column counts differ. *)
Lemma detectTableBlocks_extent_counterexample :
  let sheet1 := sheet "A1:A1" [("A1", text "Total")] in
  let sheet2 := sheet "A1:A1" [("A1", text "Total"); ("B1", text "Note")] in
  let sheet3 := sheet "B1:B1" [("B1", text "Total")] in
  let sheet4 := sheet "B1:B1" [("A1", text "Note"); ("B1", text "Total")] in
  (ref sheet1 = ref sheet2 ∧ agreeOnRange sheet1 sheet2 ∧
   detectTableBlocks sheet1 "B"
   = Ok [{| startRow := 1; endRow := 1;
            rows := [{| row := 1; columnCount := 1; labelValue := None |}];
            maxColumnCount := 1 |}] ∧
   detectTableBlocks sheet2 "B"
   = Ok [{| startRow := 1; endRow := 1;
            rows := [{| row := 1; columnCount := 1; labelValue := Some "Note" |}];
            maxColumnCount := 1 |}]) ∧
  (ref sheet3 = ref sheet4 ∧ agreeOnRange sheet3 sheet4 ∧
   detectTableBlocks sheet3 "B"
   = Ok [{| startRow := 1; endRow := 1;
            rows := [{| row := 1; columnCount := 1; labelValue := Some "Total" |}];
            maxColumnCount := 1 |}] ∧
   detectTableBlocks sheet4 "B"
   = Ok [{| startRow := 1; endRow := 1;
            rows := [{| row := 1; columnCount := 2; labelValue := Some "Total" |}];
            maxColumnCount := 2 |}]).
Proof.
  intros sheet1 sheet2 sheet3 sheet4. split.
  - split; [reflexivity|]. split; [|split; reflexivity].
    assert (sheetRange sheet1
            = {| XLSX.s := {| XLSX.r := 0; XLSX.c := 0 |};
                 XLSX.e := {| XLSX.r := 0; XLSX.c := 0 |} |}) as Hrange
      by reflexivity.
    unfold agreeOnRange. rewrite Hrange. simpl. intros r c Hr Hc.
    assert (r = 0) as -> by lia. assert (c = 0) as -> by lia. reflexivity.
  - split; [reflexivity|]. split; [|split; reflexivity].
    assert (sheetRange sheet3
            = {| XLSX.s := {| XLSX.r := 0; XLSX.c := 1 |};
                 XLSX.e := {| XLSX.r := 0; XLSX.c := 1 |} |}) as Hrange
      by reflexivity.
    unfold agreeOnRange. rewrite Hrange. simpl. intros r c Hr Hc.
    assert (r = 0) as -> by lia. assert (c = 1) as -> by lia. reflexivity.
Qed.

(** The extent theorem at two sheets that differ in column C only. *)
Lemma detectTableBlocks_extent_witness :
  let sheet1 := sheet "A1:B2" [("A1", text "Item"); ("B2", num 4)] in
  let sheet2 := sheet "A1:B2" [("A1", text "Item"); ("B2", num 4);
                               ("C1", text "beyond")] in
  ref sheet1 = ref sheet2 ∧ agreeOnExtent sheet1 sheet2 ∧
  labelInExtent sheet1 "A" ∧
  detectTableBlocks sheet1 "A" = detectTableBlocks sheet2 "A".
Proof.
  intros sheet1 sheet2.
  assert (sheetMaxRow sheet1 = 2) as Hrows by reflexivity.
  assert (sheetMaxCol sheet1 = 2) as Hcols by reflexivity.
  assert (agreeOnExtent sheet1 sheet2) as Hagree.
  { intros n col Hn Hcol. rewrite Hrows in Hn. rewrite Hcols in Hcol.
    assert (n = 1 ∨ n = 2) as [-> | ->] by lia;
      (assert (col = 0 ∨ col = 1) as [-> | ->] by lia); reflexivity. }
  assert (labelInExtent sheet1 "A") as Hlabel.
  { intros n Hn. rewrite Hrows in Hn. rewrite Hcols. exists 0.
    split; [lia|]. assert (n = 1 ∨ n = 2) as [-> | ->] by lia; reflexivity. }
  split; [reflexivity|]. split; [exact Hagree|]. split; [exact Hlabel|].
  exact (proj2 (proj2 (detectTableBlocks_extent sheet1 sheet2 "A" eq_refl Hagree))
               Hlabel).
Defined.

(** The cells of a sheet of one full column. *)
Lemma column_lookup (height n : Z) :
  1 ≤ n ≤ height → cells (column height) !! ("A" +:+ pretty n) = Some (text "x").
Proof.
  intros Hn. unfold column. cbn [cells].
  apply elem_of_list_to_map_1.
  - rewrite <-list_fmap_compose. apply NoDup_fmap_2; [|apply NoDup_seqZ].
    intros a b Heq. unfold compose in Heq. cbn [fst] in Heq.
    by apply (inj (String.app "A")), (inj pretty) in Heq.
  - apply list_elem_of_fmap. exists n. split; [done|]. apply elem_of_seqZ. lia.
Qed.

(** C1 fails on the sheet of a file of 200000 lines: every row of column A
    holds a text, so the rows make one block, and that block has more rows
    than the engine takes arguments. *)
Lemma detectTableBlocks_tall_block_witness :
  let tall := column 200000 in
  1 ≤ 1 ≤ 200000 ∧ 200000 ≤ sheetMaxRow tall ∧
  (∀ n, 1 ≤ n ≤ 200000 → rowOccupied tall n) ∧
  argumentLimit < 200000 - 1 + 1 ∧
  detectTableBlocks tall "A" = Err RangeError.
Proof.
  intros tall.
  assert (sheetMaxRow tall = 200000) as Hrows.
  { unfold tall, sheetMaxRow, sheetRange, column. cbn [ref]. vm_compute. reflexivity. }
  assert (sheetMaxCol tall = 1) as Hcols.
  { unfold tall, sheetMaxCol, sheetRange, column. cbn [ref]. vm_compute. reflexivity. }
  assert (1 ≤ 1 ≤ 200000) as Hbounds by lia.
  assert (200000 ≤ sheetMaxRow tall) as Hlast by (rewrite Hrows; lia).
  assert (∀ n, 1 ≤ n ≤ 200000 → rowOccupied tall n) as Hocc.
  { intros n Hn. exists 0. split; [rewrite Hcols; lia|]. unfold cellAt.
    change (encode_cell {| XLSX.r := n - 1; XLSX.c := 0 |})
      with ("A" +:+ pretty (n - 1 + 1)).
    replace (n - 1 + 1) with n by lia.
    unfold tall. by rewrite column_lookup. }
  assert (argumentLimit < 200000 - 1 + 1) as Htall by (cbn [argumentLimit runtime]; lia).
  split; [exact Hbounds|]. split; [exact Hlast|]. split; [exact Hocc|].
  split; [exact Htall|].
  exact (detectTableBlocks_tall_block tall "A" 1 200000 Hbounds Hlast Hocc Htall).
Defined.

(** The empty-grid theorem at a sheet whose only cell inside the range
    holds the empty string. *)
Lemma detectTableBlocks_empty_witness :
  let blank := sheet "A1:B2" [("A1", text ""); ("C1", text "beyond")] in
  (∀ n col, 1 ≤ n ≤ sheetMaxRow blank → 0 ≤ col < sheetMaxCol blank →
     occupied (cellAt blank n col) = false) ∧
  detectTableBlocks blank "A" = Ok [].
Proof.
  intros blank.
  assert (∀ n col, 1 ≤ n ≤ sheetMaxRow blank → 0 ≤ col < sheetMaxCol blank →
            occupied (cellAt blank n col) = false) as Hempty.
  { assert (sheetMaxRow blank = 2) as -> by reflexivity.
    assert (sheetMaxCol blank = 2) as -> by reflexivity.
    intros n col Hn Hcol.
    assert (n = 1 ∨ n = 2) as [-> | ->] by lia;
      (assert (col = 0 ∨ col = 1) as [-> | ->] by lia); reflexivity. }
  split; [exact Hempty|].
  exact (detectTableBlocks_empty blank "A" Hempty).
Defined.

(** The extractor on the sheet of ["A,B\n1,2"]. *)
Example extractBlockData_csv :
  extractBlockData
    (sheet "A1:B2" [("A1", text "A"); ("B1", text "B"); ("A2", num 1); ("B2", num 2)])
    {| startRow := 1; endRow := 2; rows := []; maxColumnCount := 2 |}
  = [["A"; "B"]; ["1"; "2"]].
Proof. reflexivity. Qed.

(** The shape theorem at a block that is wider than the sheet. *)
Lemma extractBlockData_shape_witness :
  let grid := sheet "A1:B2" [("A1", text "Name"); ("A2", {| v := VBoolean true |})] in
  let block := {| startRow := 1; endRow := 2; rows := []; maxColumnCount := 3 |} in
  startRow block ≤ endRow block ∧
  Z.of_nat (length (extractBlockData grid block)) = 2 ∧
  Forall (λ rowData, length rowData = 3%nat) (extractBlockData grid block).
Proof.
  intros grid block.
  assert (startRow block ≤ endRow block) as Hle by (simpl; lia).
  split; [exact Hle|].
  destruct (extractBlockData_shape grid block Hle) as (Hlength & Hwidth & _).
  split; [exact Hlength | exact Hwidth].
Defined.

(** The same rows and columns through two blocks with different [rows]. *)
Lemma extractBlockData_rows_irrelevant_witness :
  let grid := sheet "A1:B2" [("A1", text "Name"); ("B2", num 5)] in
  extractBlockData grid
    {| startRow := 1; endRow := 2; rows := []; maxColumnCount := 2 |}
  = extractBlockData grid
      {| startRow := 1; endRow := 2;
         rows := [{| row := 9; columnCount := 4; labelValue := Some "other" |}];
         maxColumnCount := 2 |}.
Proof.
  intros grid.
  apply extractBlockData_rows_irrelevant; reflexivity.
Defined.

(** [loadSheet] on a workbook without sheets and on one with two. *)
Lemma loadSheet_rule_witness :
  let first := sheet "A1:A1" [("A1", text "x")] in
  let none : WorkBook := {| SheetNames := Some []; Sheets := ∅ |} in
  let two : WorkBook :=
    {| SheetNames := Some ["Sheet1"; "Sheet2"];
       Sheets := {[ "Sheet1" := first; "Sheet2" := sheet "A1" [] ]} |} in
  loadSheet (none : @Data runtime reader) string_ = Err NoSheetsError ∧
  loadSheet (two : @Data runtime reader) array = Ok (Some first).
Proof.
  intros first none two. split.
  - apply (loadSheet_rule (none : @Data runtime reader) string_ none eq_refl). reflexivity.
  - destruct (loadSheet_rule (two : @Data runtime reader) array two eq_refl) as [_ Hfirst].
    destruct (Hfirst ltac:(discriminate)) as (name & rest & Hnames & ->).
    injection Hnames as <- _. reflexivity.
Defined.
End Concrete.

(** * Further properties of the code *)

(** ** Row analysis: what the column count measures *)

Lemma length_filter_all {A : Type} (P : A → Prop) `{!∀ x, Decision (P x)}
    (l : list A) :
  length (filter P l) = length l ↔ Forall P l.
Proof.
  split.
  - intros Hlen. apply Forall_forall. intros x Hx.
    destruct (decide (P x)) as [|Hnot]; [done|].
    pose proof (length_filter_lt P l x Hx Hnot). lia.
  - induction 1 as [|x l Hx _ IH]; [done|].
    rewrite filter_cons_True by done. simpl. by rewrite IH.
Qed.

Section RowAnalysis.
Context `{JsRuntime} `{XlsxUtils}.

(** X1.  The descriptor of a row carries the row number it was asked for;
    its column count never exceeds the number of scanned columns, is zero
    exactly when none of them is occupied and is that number exactly when
    all of them are. *)
Theorem analyzeRow_columnCount (sheet : WorkSheet) (n maxCol : Z)
    (labelColumn : string) :
  row (analyzeRow sheet n maxCol labelColumn) = n ∧
  (columnCount (analyzeRow sheet n maxCol labelColumn) ≤ Z.to_nat maxCol)%nat ∧
  (columnCount (analyzeRow sheet n maxCol labelColumn) = 0%nat
   ↔ ∀ col, 0 ≤ col < maxCol → occupied (cellAt sheet n col) = false) ∧
  (columnCount (analyzeRow sheet n maxCol labelColumn) = Z.to_nat maxCol
   ↔ ∀ col, 0 ≤ col < maxCol → occupied (cellAt sheet n col) = true).
Proof.
  split; [done|]. unfold analyzeRow. cbn [columnCount].
  split; [|split].
  - rewrite countColumns_filter, <-(length_seqZ 0 maxCol). apply length_filter.
  - apply countColumns_zero.
  - rewrite countColumns_filter, <-(length_seqZ 0 maxCol) at 1.
    rewrite length_filter_all, Forall_seqZ. split.
    + intros Hall col Hcol. apply Hall. lia.
    + intros Hall col Hcol. apply Hall. lia.
Qed.
End RowAnalysis.

(** ** Segmentation: where blocks start and end *)

Section Boundaries.
Context `{JsRuntime} `{XlsxUtils}.
Variables (sheet : WorkSheet) (labelColumn : string).

(** Two blocks of an ordered sequence are the same block or lie apart. *)
Lemma ordered_apart (bs : list TableBlock) (b b' : TableBlock) :
  ordered bs → b ∈ bs → b' ∈ bs →
  b = b' ∨ endRow b + 1 < startRow b' ∨ endRow b' + 1 < startRow b.
Proof.
  intros Hord [i Hi]%list_elem_of_lookup [j Hj]%list_elem_of_lookup.
  destruct (Nat.lt_trichotomy i j) as [Hlt|[->|Hgt]].
  - right. left. exact (Hord i j b b' Hlt Hi Hj).
  - left. congruence.
  - right. right. exact (Hord j i b' b Hgt Hj Hi).
Qed.

Lemma finalBlock_bounds (b : TableBlock) :
  finalBlock sheet labelColumn b →
  1 ≤ startRow b ∧ startRow b ≤ endRow b ∧ endRow b ≤ sheetMaxRow sheet ∧
  ∀ m, startRow b ≤ m ≤ endRow b → rowOccupied sheet m.
Proof.
  intros (first & final & -> & Hbounds & Hlast & _ & Hocc). simpl.
  repeat split; try lia. exact Hocc.
Qed.

(** X2.  Whenever the segmenter returns, its blocks are the maximal runs
    of occupied rows: a row of the row extent is the first row of a block
    exactly when it is occupied and the row above it is not (or it is row
    1), and the last row of a block exactly when it is occupied and the
    row below it is not (or it is the last row of the extent). *)
Theorem detectTableBlocks_boundaries (bs : list TableBlock) (n : Z) :
  detectTableBlocks sheet labelColumn = Ok bs →
  1 ≤ n ≤ sheetMaxRow sheet →
  ((∃ b, b ∈ bs ∧ startRow b = n)
   ↔ rowOccupied sheet n ∧ (n = 1 ∨ ¬ rowOccupied sheet (n - 1))) ∧
  ((∃ b, b ∈ bs ∧ endRow b = n)
   ↔ rowOccupied sheet n ∧
     (n = sheetMaxRow sheet ∨ ¬ rowOccupied sheet (n + 1))).
Proof.
  intros Hrun Hn.
  destruct (detectTableBlocks_Ok_segmented sheet labelColumn bs Hrun)
    as [Hfinal Hord _ Hcov].
  rewrite Forall_forall in Hfinal.
  assert (∀ b, b ∈ bs →
            1 ≤ startRow b ∧ startRow b ≤ endRow b ∧ endRow b ≤ sheetMaxRow sheet ∧
            ∀ m, startRow b ≤ m ≤ endRow b → rowOccupied sheet m) as Hin
    by (intros b Hb; by apply finalBlock_bounds, Hfinal).
  split; split.
  - intros (b & Hb & <-). destruct (Hin b Hb) as (Hone & Hle & Hmax & Hocc).
    split; [apply Hocc; lia|].
    destruct (decide (startRow b = 1)) as [|Hne]; [by left|]. right.
    intros Habove.
    destruct (Hcov (startRow b - 1) ltac:(lia) Habove) as (b' & Hb' & Hin').
    destruct (Hin b' Hb') as (_ & Hle' & _).
    destruct (ordered_apart bs b b' Hord Hb Hb') as [<-|[?|?]]; lia.
  - intros [Hocc Habove].
    destruct (Hcov n Hn Hocc) as (b & Hb & Hin').
    exists b. split; [done|].
    destruct (decide (startRow b = n)) as [|Hne]; [done|]. exfalso.
    destruct (Hin b Hb) as (Hone & _ & _ & Hrun').
    destruct Habove as [->|Habove]; [lia|].
    apply Habove, Hrun'. lia.
  - intros (b & Hb & <-). destruct (Hin b Hb) as (Hone & Hle & Hmax & Hocc).
    split; [apply Hocc; lia|].
    destruct (decide (endRow b = sheetMaxRow sheet)) as [|Hne]; [by left|]. right.
    intros Hbelow.
    destruct (Hcov (endRow b + 1) ltac:(lia) Hbelow) as (b' & Hb' & Hin').
    destruct (Hin b' Hb') as (_ & Hle' & _).
    destruct (ordered_apart bs b b' Hord Hb Hb') as [<-|[?|?]]; lia.
  - intros [Hocc Hbelow].
    destruct (Hcov n Hn Hocc) as (b & Hb & Hin').
    exists b. split; [done|].
    destruct (decide (endRow b = n)) as [|Hne]; [done|]. exfalso.
    destruct (Hin b Hb) as (_ & _ & Hmax & Hrun').
    destruct Hbelow as [->|Hbelow]; [lia|].
    apply Hbelow, Hrun'. lia.
Qed.

(** The [i]-th block cannot start before row [2 i + 1]. *)
Lemma ordered_startRow (bs : list TableBlock) (i : nat) (b : TableBlock) :
  ordered bs → Forall (finalBlock sheet labelColumn) bs →
  bs !! i = Some b → 2 * Z.of_nat i + 1 ≤ startRow b.
Proof.
  intros Hord Hfinal. rewrite Forall_forall in Hfinal.
  revert b. induction i as [|i IH]; intros b Hi.
  - destruct (finalBlock_bounds b) as (Hone & _);
      [by eapply Hfinal, list_elem_of_lookup_2 | lia].
  - destruct (lookup_lt_is_Some_2 bs i) as [b' Hi'];
      [apply lookup_lt_Some in Hi; lia|].
    specialize (IH b' Hi').
    destruct (finalBlock_bounds b') as (_ & Hle & _);
      [by eapply Hfinal, list_elem_of_lookup_2|].
    pose proof (Hord i (S i) b' b ltac:(lia) Hi' Hi). lia.
Qed.

(** X3.  Blocks need a separating row between them, so whenever the
    segmenter returns on a sheet of [maxRow] rows, it returns at most
    [(maxRow + 1) / 2] blocks, and none when [maxRow] is not positive. *)
Theorem detectTableBlocks_count (bs : list TableBlock) :
  detectTableBlocks sheet labelColumn = Ok bs →
  2 * Z.of_nat (length bs) ≤ Z.max 0 (sheetMaxRow sheet + 1).
Proof.
  intros Hrun.
  destruct (detectTableBlocks_Ok_segmented sheet labelColumn bs Hrun)
    as [Hfinal Hord _ _].
  destruct (decide (bs = [])) as [->|Hne]; [simpl; lia|].
  destruct (lookup_lt_is_Some_2 bs (pred (length bs))) as [b Hb].
  { destruct bs; [done | simpl; lia]. }
  pose proof (ordered_startRow bs _ b Hord Hfinal Hb) as Hstart.
  rewrite Forall_forall in Hfinal.
  destruct (finalBlock_bounds b) as (_ & Hle & Hmax & _);
    [by eapply Hfinal, list_elem_of_lookup_2|].
  destruct bs; [done|]. simpl in *. lia.
Qed.
End Boundaries.

(** ** Extraction of detected blocks *)

Section DetectedExtraction.
Context `{JsRuntime} `{XlsxUtils}.

Lemma countColumns_le (sheet : WorkSheet) (n maxCol : Z) :
  (countColumns sheet n maxCol ≤ Z.to_nat maxCol)%nat.
Proof. rewrite countColumns_filter, <-(length_seqZ 0 maxCol). apply length_filter. Qed.

(** A row whose columns [0 .. col] are all occupied counts at least
    [col + 1] columns. *)
Lemma countColumns_leading (sheet : WorkSheet) (n maxCol col : Z) :
  0 ≤ col < maxCol →
  (∀ c, 0 ≤ c ≤ col → occupied (cellAt sheet n c) = true) →
  col + 1 ≤ Z.of_nat (countColumns sheet n maxCol).
Proof.
  intros Hcol Hall. rewrite countColumns_filter.
  replace maxCol with ((col + 1) + (maxCol - (col + 1))) by lia.
  rewrite seqZ_app, filter_app, length_app by lia.
  assert (length (filter (λ c, occupied (cellAt sheet n c) = true) (seqZ 0 (col + 1)))
          = length (seqZ 0 (col + 1))) as ->.
  { apply length_filter_all, Forall_seqZ. intros c Hc. apply Hall. lia. }
  rewrite length_seqZ. lia.
Qed.

(** The widest row of a detected block is a row of the sheet. *)
Lemma finalBlock_width (sheet : WorkSheet) (labelColumn : string) (b : TableBlock) :
  finalBlock sheet labelColumn b →
  (1 ≤ maxColumnCount b)%nat ∧ Z.of_nat (maxColumnCount b) ≤ sheetMaxCol sheet.
Proof.
  intros Hfinal.
  destruct (finalBlock_fields sheet labelColumn b Hfinal)
    as (_ & _ & _ & _ & _ & Hrows & _ & (r & Hr & <-)).
  rewrite Forall_forall in Hrows. destruct (Hrows r Hr) as [Hpos Hinfo].
  split; [done|].
  assert (columnCount r ≤ Z.to_nat (sheetMaxCol sheet))%nat as Hle.
  { rewrite Hinfo. apply countColumns_le. }
  lia.
Qed.

(** X4.  A block that the segmenter returns is at least one column and at
    most the column extent wide, and its rows lie in the row extent:
    extracting it reads cells of the scanned rectangle only, so a second
    sheet with the same cells there gives the same strings. *)
Theorem extractBlockData_detected_extent (sheet1 sheet2 : WorkSheet)
    (labelColumn : string) (bs : list TableBlock) (b : TableBlock) :
  agreeOnExtent sheet1 sheet2 →
  detectTableBlocks sheet1 labelColumn = Ok bs → b ∈ bs →
  (1 ≤ maxColumnCount b)%nat ∧
  Z.of_nat (maxColumnCount b) ≤ sheetMaxCol sheet1 ∧
  extractBlockData sheet1 b = extractBlockData sheet2 b.
Proof.
  intros Hagree Hrun Hb.
  destruct (detectTableBlocks_Ok_segmented sheet1 labelColumn bs Hrun)
    as [Hfinal _ _ _].
  rewrite Forall_forall in Hfinal. specialize (Hfinal b Hb).
  destruct (finalBlock_width _ _ _ Hfinal) as [Hpos Hwidth].
  destruct (finalBlock_bounds _ _ _ Hfinal) as (Hone & _ & Hmax & _).
  split; [done|]. split; [done|].
  rewrite !extractBlockData_fmap.
  apply list_fmap_ext. intros i n [-> Hi]%lookup_seqZ.
  apply list_fmap_ext. intros j col [-> Hj]%lookup_seqZ.
  f_equal. apply Hagree; lia.
Qed.

(** X5.  In a block that the segmenter returns, a cell of a column of the
    column extent ([0 ≤ col < maxCol]) whose row is occupied in every
    column up to its own is extracted: the grid of strings holds the
    string coercion of its value at its row offset and column. *)
Theorem extractBlockData_detected_leading (sheet : WorkSheet)
    (labelColumn : string) (bs : list TableBlock) (b : TableBlock) (n col : Z) :
  detectTableBlocks sheet labelColumn = Ok bs →
  b ∈ bs → startRow b ≤ n ≤ endRow b → 0 ≤ col < sheetMaxCol sheet →
  (∀ c, 0 ≤ c ≤ col → occupied (cellAt sheet n c) = true) →
  ∃ rowData cell,
    extractBlockData sheet b !! Z.to_nat (n - startRow b) = Some rowData ∧
    cellAt sheet n col = Some cell ∧
    rowData !! Z.to_nat col = Some (js_String (v cell)).
Proof.
  intros Hrun Hb Hn Hcol Hall.
  destruct (detectTableBlocks_Ok_segmented sheet labelColumn bs Hrun)
    as [Hfinal _ _ _].
  rewrite Forall_forall in Hfinal.
  destruct (Hfinal b Hb) as (first & final & -> & Hbounds & Hlast & _ & Hocc).
  rewrite extractBlockData_fmap.
  unfold runBlock in *. cbn [startRow endRow maxColumnCount] in *.
  assert (col + 1
          ≤ Z.of_nat (max_list_with columnCount (runOf sheet labelColumn first final)))
    as Hwide.
  { pose proof (countColumns_leading sheet n (sheetMaxCol sheet) col Hcol Hall) as Hcount.
    assert (rowInfo sheet labelColumn n ∈ runOf sheet labelColumn first final) as Hin.
    { unfold runOf. apply list_elem_of_fmap_2, elem_of_seqZ. lia. }
    pose proof (max_list_with_ge columnCount _ _ Hin) as Hmax.
    change (columnCount (rowInfo sheet labelColumn n))
      with (countColumns sheet n (sheetMaxCol sheet)) in Hmax.
    lia. }
  specialize (Hall col ltac:(lia)).
  destruct (cellAt sheet n col) as [cell|] eqn:Hcell; [|done].
  eexists _, cell.
  split; [|split; [done|]].
  - rewrite list_lookup_fmap, lookup_seqZ_lt by lia. reflexivity.
  - cbv beta. rewrite list_lookup_fmap, lookup_seqZ_lt by lia. simpl.
    replace (first + Z.of_nat (Z.to_nat (n - first))) with n by lia.
    replace (0 + Z.of_nat (Z.to_nat col)) with col by lia.
    rewrite Hcell. f_equal. apply cellText_defined.
    unfold occupied in Hall. by destruct (v cell).
Qed.
End DetectedExtraction.

(** ** Classification without a pattern, and of detected blocks *)

(** X7.  Without a header pattern, on a block with at least one row and
    pairwise distinct row numbers, the structure is a split of the rows in
    their order: title (if any), then header, then data give back the rows
    of the block; the header is the first candidate row and the data rows
    are the candidate rows after it, or all candidate rows under
    [noHeader: true]. *)
Theorem analyzeBlockStructure_default_split (block : TableBlock)
    (options : HeaderDetectionOptions) :
  rows block ≠ [] → NoDup (row <$> rows block) → headerPattern options = None →
  ∃ structure,
    analyzeBlockStructure block options = Ok structure ∧
    structureRows structure = rows block ∧
    (noHeader options = Some true →
     headerRow structure = None ∧ dataRows structure = candidateRows block) ∧
    (noHeader options ≠ Some true →
     headerRow structure = head (candidateRows block) ∧
     dataRows structure = drop 1 (candidateRows block)).
Proof.
  intros Hrows Hdup Hpattern.
  destruct (rows block) as [|firstRow rest] eqn:Erows; [done|].
  pose proof (detectTitleRow_cons _ _ _ Erows) as Htitle.
  pose proof (candidateRows_cons _ _ _ Erows) as Hcandidates.
  assert ((row firstRow ∉ (row <$> rest)) ∧ NoDup (row <$> rest)) as [Hfresh Hdup']
    by (by apply NoDup_cons).
  assert (filter (λ r, row r ≠ row firstRow) (firstRow :: rest) = rest) as Hrest.
  { rewrite filter_cons_False by (intros Hne; by apply Hne).
    by apply filter_row_fresh. }
  assert (detectHeaderRow block options
          = Ok (if decide (noHeader options = Some true) then None
                else head (candidateRows block))) as Hheader.
  { destruct (decide (noHeader options = Some true)) as [Hno|Hno].
    - unfold detectHeaderRow. by rewrite Hno.
    - rewrite (detectHeaderRow_candidates block options Hno) by (by rewrite Erows).
      rewrite Hpattern. by destruct (candidateRows block). }
  unfold analyzeBlockStructure. rewrite Htitle, Hheader, !bind_Ok, Erows, Hcandidates.
  destruct (decide (columnCount firstRow < maxColumnCount block)%nat);
    destruct (decide (noHeader options = Some true)) as [Hno|Hno];
    (eexists; split; [reflexivity|]; unfold structureRows;
     cbn [titleRow headerRow dataRows option_list app]);
    rewrite ?Hrest.
  - (* title, no header *)
    repeat split; done.
  - (* title and header *)
    destruct rest as [|second rest']; [repeat split; done|].
    assert (filter (λ r, row r ≠ row second) (second :: rest') = rest') as Hrest'.
    { rewrite filter_cons_False by (intros Hne; by apply Hne).
      apply filter_row_fresh. by apply NoDup_cons in Hdup' as [? _]. }
    cbn [head option_list app]. rewrite Hrest'. repeat split; done.
  - (* neither *)
    repeat split; done.
  - (* header, no title *)
    cbn [head option_list app]. rewrite Hrest. repeat split; done.
Qed.

(** The default classification of a titled block of four rows. *)
Lemma analyzeBlockStructure_default_split_witness :
  let title := {| row := 1; columnCount := 1; labelValue := Some "Sales" |} in
  let month := {| row := 2; columnCount := 3; labelValue := Some "Month" |} in
  let jan := {| row := 3; columnCount := 3; labelValue := Some "Jan" |} in
  let feb := {| row := 4; columnCount := 3; labelValue := Some "Feb" |} in
  let block := {| startRow := 1; endRow := 4; rows := [title; month; jan; feb];
                  maxColumnCount := 3 |} in
  ∃ structure,
    analyzeBlockStructure block {| headerPattern := None; noHeader := None |}
    = Ok structure ∧
    structureRows structure = [title; month; jan; feb] ∧
    headerRow structure = Some month ∧ dataRows structure = [jan; feb].
Proof.
  intros title month jan feb block.
  destruct (analyzeBlockStructure_default_split block
              {| headerPattern := None; noHeader := None |})
    as (structure & Hrun & Hrows & _ & Hsplit);
    [discriminate | apply (bool_decide_unpack _); vm_compute; exact I | reflexivity |].
  destruct (Hsplit ltac:(discriminate)) as [Hheader Hdata].
  exists structure. split; [exact Hrun|]. split; [exact Hrows|].
  split; [exact Hheader | exact Hdata].
Defined.

Section DetectedStructure.
Context `{JsRuntime} `{XlsxUtils}.
Variables (sheet : WorkSheet) (labelColumn : string).

Lemma runOf_cons (first final : Z) :
  first ≤ final →
  runOf sheet labelColumn first final
  = rowInfo sheet labelColumn first :: runOf sheet labelColumn (first + 1) final.
Proof.
  intros Hle. unfold runOf. rewrite seqZ_cons by lia. rewrite fmap_cons.
  f_equal. f_equal. f_equal; lia.
Qed.

Lemma runOf_elem (first final : Z) (r : BlockRow) :
  r ∈ runOf sheet labelColumn first final → first ≤ row r ≤ final.
Proof.
  unfold runOf. intros (n & -> & Hn%elem_of_seqZ)%list_elem_of_fmap. simpl. lia.
Qed.

(** X6.  On every block the segmenter returns, the classifier returns a
    structure, whatever the options.  A title, when there is one, is the
    row at [startRow] of a block of at least two rows.  The header is
    absent exactly under [noHeader: true]; when present it is a row of the
    block, below the title if there is one. *)
Theorem analyzeBlockStructure_detected (bs : list TableBlock) (b : TableBlock)
    (options : HeaderDetectionOptions) :
  detectTableBlocks sheet labelColumn = Ok bs → b ∈ bs →
  ∃ structure,
    analyzeBlockStructure b options = Ok structure ∧
    (∀ t, titleRow structure = Some t →
       rows b !! 0%nat = Some t ∧ row t = startRow b ∧ startRow b < endRow b) ∧
    (headerRow structure = None ↔ noHeader options = Some true) ∧
    (∀ h, headerRow structure = Some h →
       h ∈ rows b ∧ startRow b ≤ row h ≤ endRow b ∧
       ∀ t, titleRow structure = Some t → row t < row h).
Proof.
  intros Hrun Hb.
  destruct (detectTableBlocks_Ok_segmented sheet labelColumn bs Hrun)
    as [Hfinal _ _ _].
  rewrite Forall_forall in Hfinal.
  destruct (Hfinal b Hb) as (first & final & -> & Hbounds & Hlast & _ & Hocc).
  clear Hb.
  set (b := runBlock sheet labelColumn first final).
  assert (rows b = rowInfo sheet labelColumn first
                   :: runOf sheet labelColumn (first + 1) final) as Erows
    by (apply runOf_cons; lia).
  pose proof (detectTitleRow_cons _ _ _ Erows) as Htitle.
  pose proof (candidateRows_cons _ _ _ Erows) as Hcandidates.
  assert ((columnCount (rowInfo sheet labelColumn first) < maxColumnCount b)%nat
          → first < final) as Htwo.
  { intros Hlt. destruct (decide (first = final)) as [->|]; [|lia]. exfalso.
    unfold b, runBlock in Hlt. cbn [maxColumnCount] in Hlt.
    rewrite runOf_single in Hlt. simpl in Hlt. lia. }
  assert (candidateRows b ≠ []) as Hsome.
  { rewrite Hcandidates. destruct (decide _) as [Hlt|]; [|done].
    rewrite runOf_cons by (apply Htwo in Hlt; lia). done. }
  destruct (detectHeaderRow_Ok b options ltac:(by rewrite Erows)) as [header Hheader].
  unfold analyzeBlockStructure. rewrite Htitle, Hheader, !bind_Ok.
  eexists. split; [reflexivity|]. cbn [titleRow headerRow].
  split; [|split].
  - intros t Ht. destruct (decide _) as [Hlt|]; [|done].
    injection Ht as <-. rewrite Erows. repeat split. by apply Htwo.
  - split.
    + intros ->. destruct (decide (noHeader options = Some true)) as [|Hno]; [done|].
      exfalso.
      rewrite (detectHeaderRow_candidates b options Hno) in Hheader
        by (by rewrite Erows).
      destruct (candidateRows b); [done|].
      destruct (headerPattern options); [destruct (findByPattern _ _)|];
        discriminate.
    + intros Hno. unfold detectHeaderRow in Hheader. rewrite Hno in Hheader.
      by injection Hheader as <-.
  - intros h ->. apply detectHeaderRow_elem in Hheader.
    rewrite Hcandidates in Hheader.
    destruct (decide _) as [Hlt|].
    + pose proof (runOf_elem _ _ _ Hheader) as Hrow.
      split; [rewrite Erows; by apply list_elem_of_further|].
      split; [simpl; lia|]. intros t [= <-]. simpl. lia.
    + rewrite <-Erows in Hheader. split; [done|].
      split; [|done]. by apply (runOf_elem first final).
Qed.
End DetectedStructure.

(** ** The demo application *)

Lemma mapM_result_Ok {A B : Type} (f : A → result B) (R : A → B → Prop)
    (l : list A) :
  (∀ x, x ∈ l → ∃ y, f x = Ok y ∧ R x y) →
  ∃ k, mapM f l = Ok k ∧ Forall2 R l k.
Proof.
  induction l as [|x l IH]; intros Hall.
  - exists []. split; [done | constructor].
  - destruct (Hall x ltac:(apply list_elem_of_here)) as (y & Hy & HR).
    destruct IH as (k & Hk & Hrel).
    { intros z Hz. apply Hall. by apply list_elem_of_further. }
    exists (y :: k). split; [|by constructor].
    simpl. rewrite Hy, bind_Ok. fold (mapM f l). by rewrite Hk.
Qed.

Section DemoPipeline.
Context `{JsRuntime} `{XlsxUtils}.

(** The demo's extractor is the library's. *)
Lemma demo_extractBlockData (sheet : WorkSheet) (b : TableBlock) :
  Demo.extractBlockData sheet b = extractBlockData sheet b.
Proof. reflexivity. Qed.

Lemma caption_nonempty (shown : Demo.BlockWithData) (index : nat) :
  Demo.caption shown index ≠ "".
Proof.
  unfold Demo.caption, truthy_string.
  destruct (Demo.title shown) as [label|]; simpl.
  - destruct (String.eqb label "") eqn:Hlabel; simpl; [done|].
    by apply String.eqb_neq.
  - done.
Qed.


(** The callback of [detectedBlocks.map] never throws on a block the
    segmenter returned. *)
Lemma blockWithData_detected (sheet : WorkSheet) (labelColumn : string)
    (bs : list TableBlock) (b : TableBlock) :
  detectTableBlocks sheet labelColumn = Ok bs → b ∈ bs →
  ∃ shown, Demo.blockWithData sheet b = Ok shown ∧ shownFor sheet b shown.
Proof.
  intros Hrun Hb.
  destruct (detectTableBlocks_Ok_segmented sheet labelColumn bs Hrun)
    as [Hfinal _ _ _].
  rewrite Forall_forall in Hfinal.
  destruct (Hfinal b Hb) as (first & final & -> & Hbounds & Hlast & _ & Hocc).
  clear Hb.
  set (b := runBlock sheet labelColumn first final).
  assert (rows b = rowInfo sheet labelColumn first
                   :: runOf sheet labelColumn (first + 1) final) as Erows
    by (apply runOf_cons; lia).
  pose proof (detectTitleRow_cons _ _ _ Erows) as Htitle.
  destruct (detectHeaderRow_Ok b {| headerPattern := None; noHeader := None |}
              ltac:(by rewrite Erows)) as [header Hheader].
  assert (length (extractBlockData sheet b) = length (rows b)) as Hlength.
  { rewrite extractBlockData_fmap, length_fmap, length_seqZ.
    unfold b, runBlock. cbn [rows startRow endRow]. by rewrite runOf_length. }
  unfold Demo.blockWithData, analyzeBlockStructure.
  rewrite Htitle, Hheader, !bind_Ok. cbn [titleRow].
  eexists. split; [reflexivity|].
  split; [done|]. split; [done|]. split; [done|].
  split; [by eexists|]. split; [|apply caption_nonempty].
  unfold Demo.tableRows. cbn [Demo.title Demo.data].
  rewrite demo_extractBlockData.
  destruct (truthy_string _); [rewrite length_drop|]; lia.
Qed.

(** X8.  The demo's callback for one sheet returns exactly when the
    segmenter returns on that sheet with label column ["A"], and throws
    the segmenter's exception otherwise.  When it returns, the sheet data
    has one entry per detected block, in order, with the block, the
    strings the library extractor gives for it (one row of strings per
    block row), and the label of the detected title row as title.  The
    table of a block card has one row less than the block exactly when the
    title is a non-empty string, and its caption is never empty. *)
Theorem demo_sheetData (sheetName : string) (sheet : WorkSheet) :
  (∀ detected,
     detectTableBlocks sheet "A" = Ok detected →
     ∃ shown,
       Demo.sheetData sheetName sheet
       = Ok {| Demo.name := sheetName; Demo.blocks := shown |} ∧
       Forall2 (shownFor sheet) detected shown) ∧
  (∀ e,
     detectTableBlocks sheet "A" = Err e →
     Demo.sheetData sheetName sheet = Err e).
Proof.
  split.
  - intros detected Hrun.
    destruct (mapM_result_Ok (Demo.blockWithData sheet) (shownFor sheet) detected)
      as (shown & Hmap & Hshown).
    { intros b Hb. by eapply blockWithData_detected. }
    exists shown. split; [|done].
    unfold Demo.sheetData. by rewrite Hrun, bind_Ok, Hmap.
  - intros e Hrun. unfold Demo.sheetData. by rewrite Hrun.
Qed.
End DemoPipeline.

(** ** The label column and the shape of the blocks *)

Section LabelColumn.
Context `{JsRuntime} `{XlsxUtils}.
Variables (sheet : WorkSheet) (labelColumn1 labelColumn2 : string).

Lemma scanRow_labels (maxCol : Z) (st1 st2 : Scan) (n : Z) :
  sameScan st1 st2 →
  sameOutcome sameScan (scanRow sheet maxCol labelColumn1 st1 n)
                       (scanRow sheet maxCol labelColumn2 st2 n).
Proof.
  intros (Hblocks & Hcur & Hstart). unfold scanRow.
  assert (length (currentBlock st1) = length (currentBlock st2)) as Hlen
    by (by rewrite <-(length_fmap shapeOfRow), Hcur, length_fmap).
  change (columnCount (analyzeRow sheet n maxCol labelColumn1))
    with (countColumns sheet n maxCol).
  change (columnCount (analyzeRow sheet n maxCol labelColumn2))
    with (countColumns sheet n maxCol).
  destruct (decide (countColumns sheet n maxCol = 0%nat)).
  - destruct (decide (0 < length (currentBlock st1))%nat),
             (decide (0 < length (currentBlock st2))%nat); try lia; [|done].
    pose proof (createBlock_shape _ _ (blockStartRow st2) Hcur) as Hblock.
    rewrite Hstart.
    destruct (createBlock (currentBlock st1) _) as [b1|],
             (createBlock (currentBlock st2) _) as [b2|];
      try done.
    change (shapeOfBlock b1 = shapeOfBlock b2) in Hblock.
    split; [|done]. cbn [blocks].
    by rewrite !fmap_app, Hblocks, !list_fmap_singleton, Hblock.
  - split; [done|]. simpl. split.
    + by rewrite !fmap_app, Hcur.
    + rewrite Hstart. by destruct (decide (blockStartRow st2 = -1)).
Qed.

Lemma scanRows_labels (maxCol : Z) (todo : list Z) (st1 st2 : Scan) :
  sameScan st1 st2 →
  sameOutcome sameScan (scanRows sheet maxCol labelColumn1 st1 todo)
                       (scanRows sheet maxCol labelColumn2 st2 todo).
Proof.
  revert st1 st2. induction todo as [|n todo IH]; intros st1 st2 Hsame; [done|].
  simpl. pose proof (scanRow_labels maxCol st1 st2 n Hsame) as Hstep.
  destruct (scanRow sheet _ labelColumn1 st1 n), (scanRow sheet _ labelColumn2 st2 n);
    simpl in *; try done.
  by apply IH.
Qed.

(** X10.  The label column decides label values and nothing else: for two
    label columns the segmenter has, on the same sheet, the same outcome.
    It returns for both or throws the same exception for both, and the
    blocks it returns have the same [startRow], [endRow],
    [maxColumnCount], row numbers and column counts. *)
Theorem detectTableBlocks_labelColumn :
  sameOutcome (λ bs1 bs2, shapeOfBlock <$> bs1 = shapeOfBlock <$> bs2)
              (detectTableBlocks sheet labelColumn1)
              (detectTableBlocks sheet labelColumn2).
Proof.
  unfold detectTableBlocks.
  pose proof (scanRows_labels (sheetMaxCol sheet) (seqZ 1 (sheetMaxRow sheet))
                {| blocks := []; currentBlock := []; blockStartRow := -1 |}
                {| blocks := []; currentBlock := []; blockStartRow := -1 |}
                ltac:(done)) as Hscan.
  destruct (scanRows sheet _ labelColumn1 _ _) as [st1|],
           (scanRows sheet _ labelColumn2 _ _) as [st2|]; try done.
  destruct Hscan as (Hblocks & Hcur & Hstart). rewrite !bind_Ok.
  assert (length (currentBlock st1) = length (currentBlock st2)) as Hlen
    by (by rewrite <-(length_fmap shapeOfRow), Hcur, length_fmap).
  destruct (decide (0 < length (currentBlock st1))%nat),
           (decide (0 < length (currentBlock st2))%nat); try lia; [|done].
  pose proof (createBlock_shape _ _ (blockStartRow st2) Hcur) as Hblock.
  rewrite Hstart.
  destruct (createBlock (currentBlock st1) _) as [b1|],
           (createBlock (currentBlock st2) _) as [b2|];
    try done.
  change (shapeOfBlock b1 = shapeOfBlock b2) in Hblock.
  rewrite !bind_Ok. simpl.
  by rewrite !fmap_app, Hblocks, !list_fmap_singleton, Hblock.
Qed.
End LabelColumn.

(** ** The further theorems at concrete worksheets *)

Section ConcreteFurther.
#[local] Existing Instance Sample.runtime.
#[local] Existing Instance Sample.utils.
Import Sample.

(** A row with a gap: the block is as wide as the row has occupied cells,
    so the cell behind the gap is not extracted. *)
Example extractBlockData_gap :
  let grid := sheet "A1:C1" [("A1", text "a"); ("C1", text "c")] in
  detectTableBlocks grid "A"
  = Ok [{| startRow := 1; endRow := 1;
           rows := [{| row := 1; columnCount := 2; labelValue := Some "a" |}];
           maxColumnCount := 2 |}] ∧
  extractBlockData grid
    {| startRow := 1; endRow := 1;
       rows := [{| row := 1; columnCount := 2; labelValue := Some "a" |}];
       maxColumnCount := 2 |}
  = [["a"; ""]].
Proof. split; reflexivity. Qed.

(** The boundaries of the two blocks of a sheet with an empty third row. *)
Lemma detectTableBlocks_boundaries_witness :
  let grid := sheet "A1:A4" [("A1", text "a"); ("A2", text "b"); ("A4", text "c")] in
  let upper := {| startRow := 1; endRow := 2;
                  rows := [{| row := 1; columnCount := 1; labelValue := Some "a" |};
                           {| row := 2; columnCount := 1; labelValue := Some "b" |}];
                  maxColumnCount := 1 |} in
  let lower := {| startRow := 4; endRow := 4;
                  rows := [{| row := 4; columnCount := 1; labelValue := Some "c" |}];
                  maxColumnCount := 1 |} in
  detectTableBlocks grid "A" = Ok [upper; lower] ∧
  1 ≤ 4 ≤ sheetMaxRow grid ∧
  ((∃ b, b ∈ [upper; lower] ∧ startRow b = 4)
   ↔ rowOccupied grid 4 ∧ (4 = 1 ∨ ¬ rowOccupied grid (4 - 1))) ∧
  ((∃ b, b ∈ [upper; lower] ∧ endRow b = 4)
   ↔ rowOccupied grid 4 ∧ (4 = sheetMaxRow grid ∨ ¬ rowOccupied grid (4 + 1))).
Proof.
  intros grid upper lower.
  assert (detectTableBlocks grid "A" = Ok [upper; lower]) as Hrun by reflexivity.
  assert (1 ≤ 4 ≤ sheetMaxRow grid) as Hrow
    by (assert (sheetMaxRow grid = 4) as -> by reflexivity; lia).
  split; [exact Hrun|]. split; [exact Hrow|].
  exact (detectTableBlocks_boundaries grid "A" [upper; lower] 4 Hrun Hrow).
Defined.

(** Two blocks in four rows. *)
Lemma detectTableBlocks_count_witness :
  let grid := sheet "A1:A4" [("A1", text "a"); ("A2", text "b"); ("A4", text "c")] in
  let upper := {| startRow := 1; endRow := 2;
                  rows := [{| row := 1; columnCount := 1; labelValue := Some "a" |};
                           {| row := 2; columnCount := 1; labelValue := Some "b" |}];
                  maxColumnCount := 1 |} in
  let lower := {| startRow := 4; endRow := 4;
                  rows := [{| row := 4; columnCount := 1; labelValue := Some "c" |}];
                  maxColumnCount := 1 |} in
  detectTableBlocks grid "A" = Ok [upper; lower] ∧
  2 * Z.of_nat (length [upper; lower]) ≤ Z.max 0 (sheetMaxRow grid + 1).
Proof.
  intros grid upper lower.
  assert (detectTableBlocks grid "A" = Ok [upper; lower]) as Hrun by reflexivity.
  split; [exact Hrun|].
  exact (detectTableBlocks_count grid "A" [upper; lower] Hrun).
Defined.

(** The extraction theorem at two sheets that differ in column C only. *)
Lemma extractBlockData_detected_extent_witness :
  let sheet1 := sheet "A1:B2" [("A1", text "Item"); ("B2", num 4)] in
  let sheet2 := sheet "A1:B2" [("A1", text "Item"); ("B2", num 4);
                               ("C1", text "beyond")] in
  let b := {| startRow := 1; endRow := 2;
              rows := [{| row := 1; columnCount := 1; labelValue := Some "Item" |};
                       {| row := 2; columnCount := 1; labelValue := None |}];
              maxColumnCount := 1 |} in
  agreeOnExtent sheet1 sheet2 ∧
  detectTableBlocks sheet1 "A" = Ok [b] ∧
  (1 ≤ maxColumnCount b)%nat ∧
  Z.of_nat (maxColumnCount b) ≤ sheetMaxCol sheet1 ∧
  extractBlockData sheet1 b = extractBlockData sheet2 b.
Proof.
  intros sheet1 sheet2 b.
  assert (agreeOnExtent sheet1 sheet2) as Hagree.
  { assert (sheetMaxRow sheet1 = 2) as Hrows by reflexivity.
    assert (sheetMaxCol sheet1 = 2) as Hcols by reflexivity.
    intros n col Hn Hcol. rewrite Hrows in Hn. rewrite Hcols in Hcol.
    assert (n = 1 ∨ n = 2) as [-> | ->] by lia;
      (assert (col = 0 ∨ col = 1) as [-> | ->] by lia); reflexivity. }
  assert (detectTableBlocks sheet1 "A" = Ok [b]) as Hrun by reflexivity.
  split; [exact Hagree|]. split; [exact Hrun|].
  exact (extractBlockData_detected_extent sheet1 sheet2 "A" [b] b Hagree Hrun
           ltac:(apply list_elem_of_here)).
Defined.

(** The number in the second column of the second row of a full block. *)
Lemma extractBlockData_detected_leading_witness :
  let grid := sheet "A1:B2" [("A1", text "Item"); ("B1", text "Qty");
                             ("A2", text "Nut"); ("B2", num 4)] in
  let b := {| startRow := 1; endRow := 2;
              rows := [{| row := 1; columnCount := 2; labelValue := Some "Item" |};
                       {| row := 2; columnCount := 2; labelValue := Some "Nut" |}];
              maxColumnCount := 2 |} in
  detectTableBlocks grid "A" = Ok [b] ∧
  (∀ c, 0 ≤ c ≤ 1 → occupied (cellAt grid 2 c) = true) ∧
  ∃ rowData cell,
    extractBlockData grid b !! Z.to_nat (2 - startRow b) = Some rowData ∧
    cellAt grid 2 1 = Some cell ∧
    rowData !! Z.to_nat 1 = Some (js_String (v cell)).
Proof.
  intros grid b.
  assert (detectTableBlocks grid "A" = Ok [b]) as Hrun by reflexivity.
  assert (∀ c, 0 ≤ c ≤ 1 → occupied (cellAt grid 2 c) = true) as Hall.
  { intros c Hc. assert (c = 0 ∨ c = 1) as [-> | ->] by lia; reflexivity. }
  assert (0 ≤ 1 < sheetMaxCol grid) as Hcol
    by (assert (sheetMaxCol grid = 2) as -> by reflexivity; lia).
  split; [exact Hrun|]. split; [exact Hall|].
  exact (extractBlockData_detected_leading grid "A" [b] b 2 1 Hrun
           ltac:(apply list_elem_of_here) ltac:(simpl; lia) Hcol Hall).
Defined.

(** The classifier, with a pattern, on the block of a titled sheet. *)
Lemma analyzeBlockStructure_detected_witness :
  let grid := sheet "A1:B3" [("A1", text "Stock"); ("A2", text "Item");
                             ("B2", text "Qty"); ("A3", text "Nut"); ("B3", num 4)] in
  let b := {| startRow := 1; endRow := 3;
              rows := [{| row := 1; columnCount := 1; labelValue := Some "Stock" |};
                       {| row := 2; columnCount := 2; labelValue := Some "Item" |};
                       {| row := 3; columnCount := 2; labelValue := Some "Nut" |}];
              maxColumnCount := 2 |} in
  let options := {| headerPattern := Some (plain (String.eqb "Nut"));
                    noHeader := None |} in
  detectTableBlocks grid "A" = Ok [b] ∧
  ∃ structure,
    analyzeBlockStructure b options = Ok structure ∧
    (∀ t, titleRow structure = Some t →
       rows b !! 0%nat = Some t ∧ row t = startRow b ∧ startRow b < endRow b) ∧
    (headerRow structure = None ↔ noHeader options = Some true) ∧
    (∀ h, headerRow structure = Some h →
       h ∈ rows b ∧ startRow b ≤ row h ≤ endRow b ∧
       ∀ t, titleRow structure = Some t → row t < row h).
Proof.
  intros grid b options.
  assert (detectTableBlocks grid "A" = Ok [b]) as Hrun by reflexivity.
  split; [exact Hrun|].
  exact (analyzeBlockStructure_detected grid "A" [b] b options Hrun
           ltac:(apply list_elem_of_here)).
Defined.

(** The demo on a sheet of two blocks: the first block has a title, the
    second has none and is captioned by its position. *)
Example demo_sheetData_run :
  let grid := sheet "A1:B5" [("A1", text "Stock"); ("A2", text "Item");
                             ("B2", text "Qty"); ("A3", text "Nut"); ("B3", num 4);
                             ("A5", text "Note")] in
  (out ← Demo.sheetData "Sheet1" grid;
   Ok (Demo.title <$> Demo.blocks out, Demo.tableRows <$> Demo.blocks out,
       imap (λ index shown, Demo.caption shown index) (Demo.blocks out)))
  = Ok ([Some "Stock"; None],
        [[["Item"; "Qty"]; ["Nut"; "4"]]; [["Note"]]],
        ["Stock"; "Block 2"]).
Proof. reflexivity. Qed.

Lemma demo_sheetData_witness :
  let grid := sheet "A1:B3" [("A1", text "Stock"); ("A2", text "Item");
                             ("B2", text "Qty"); ("A3", text "Nut"); ("B3", num 4)] in
  let b := {| startRow := 1; endRow := 3;
              rows := [{| row := 1; columnCount := 1; labelValue := Some "Stock" |};
                       {| row := 2; columnCount := 2; labelValue := Some "Item" |};
                       {| row := 3; columnCount := 2; labelValue := Some "Nut" |}];
              maxColumnCount := 2 |} in
  detectTableBlocks grid "A" = Ok [b] ∧
  ∃ shown,
    Demo.sheetData "Sheet1" grid
    = Ok {| Demo.name := "Sheet1"; Demo.blocks := shown |} ∧
    Forall2 (shownFor grid) [b] shown.
Proof.
  intros grid b.
  assert (detectTableBlocks grid "A" = Ok [b]) as Hrun by reflexivity.
  split; [exact Hrun|].
  exact (proj1 (demo_sheetData "Sheet1" grid) [b] Hrun).
Defined.
End ConcreteFurther.
